(** * Triangle layout: grid cell <-> pixel vertices

    A shallow embedding of [src/triangle-layout.js] (class [TriangleLayout]
    with its helper classes [TriangleCoordinates] and [Coordinate]) and the
    properties of its forward map, inverse map, validation guard and
    self-test.

    Numbers.  The program only meets integers, [NaN] and [undefined]; a
    JavaScript integer is modelled as a mathematical integer [Z] (exact for
    the safe-integer range of doubles, where [0] and [-0] are identified),
    and every position that can hold [NaN] or [undefined] keeps that
    possibility in its type. *)

From Stdlib Require Import ZArith Zquot List String Ascii Bool Lia.
From Stdlib Require Import DecimalString DecimalZ.
Import ListNotations.

Local Open Scope string_scope.
Local Open Scope list_scope.
Local Open Scope Z_scope.

(** ** The JavaScript values and built-ins the program uses *)

Module JS.

(** A JavaScript number, as far as this program can produce one. *)
Inductive number : Type :=
| Int (z : Z)
| NaN.

(** [option A] reads "an [A] or [undefined]". *)
Abbreviation undefined := None (only parsing).

(** A value of unknown type: what [calculateRowAndColumn] puts into the
    array it returns. *)
Inductive value : Type :=
| VUndefined
| VNumber (n : number)
| VString (s : string).

Definition of_number (v : option number) : value :=
  match v with Some n => VNumber n | undefined => VUndefined end.

Definition of_string (v : option string) : value :=
  match v with Some s => VString s | undefined => VUndefined end.

(** [ToNumber] on a number or [undefined]. *)
Definition ToNumber (v : option number) : number :=
  match v with Some n => n | undefined => NaN end.

(** [a + b] on numbers or [undefined]. *)
Definition plus (a b : option number) : number :=
  match ToNumber a, ToNumber b with
  | Int x, Int y => Int (x + y)
  | _, _ => NaN
  end.

(** [a * b]. *)
Definition times (a b : option number) : number :=
  match ToNumber a, ToNumber b with
  | Int x, Int y => Int (x * y)
  | _, _ => NaN
  end.

(** [a % b]: the remainder has the sign of the dividend; [x % 0] is NaN. *)
Definition remainder (a b : option number) : number :=
  match ToNumber a, ToNumber b with
  | Int x, Int y => if y =? 0 then NaN else Int (Z.rem x y)
  | _, _ => NaN
  end.

(** [a > b] and [a < b]: false as soon as one side is NaN. *)
Definition gt (a b : option number) : bool :=
  match ToNumber a, ToNumber b with
  | Int x, Int y => x >? y
  | _, _ => false
  end.

Definition lt (a b : option number) : bool :=
  match ToNumber a, ToNumber b with
  | Int x, Int y => x <? y
  | _, _ => false
  end.

Definition isNaN (a : option number) : bool :=
  match ToNumber a with Int _ => false | NaN => true end.

(** [a === b] on two numbers: NaN differs from everything. *)
Definition number_strict_eq (a b : number) : bool :=
  match a, b with
  | Int x, Int y => x =? y
  | _, _ => false
  end.

(** [a === b] on two values that are each a number or [undefined]. *)
Definition strict_eq (a b : option number) : bool :=
  match a, b with
  | Some x, Some y => number_strict_eq x y
  | undefined, undefined => true
  | _, _ => false
  end.

(** [!scale]: [undefined], [0] and [NaN] are falsy. *)
Definition falsy (a : option number) : bool :=
  match a with
  | Some (Int z) => z =? 0
  | Some NaN => true
  | undefined => true
  end.

(** Decimal text of an integer, as [Number.prototype.toString] prints it. *)
Definition decimal (z : Z) : string := NilZero.string_of_int (Z.to_int z).

Definition number_to_string (n : number) : string :=
  match n with Int z => decimal z | NaN => "NaN" end.

(** [ToString], as string concatenation applies it. *)
Definition ToString (v : value) : string :=
  match v with
  | VUndefined => "undefined"
  | VNumber n => number_to_string n
  | VString s => s
  end.

(** *** [parseInt] with no radix argument *)

Definition is_white (c : ascii) : bool :=
  let n := nat_of_ascii c in
  (Nat.eqb n 9 || Nat.eqb n 10 || Nat.eqb n 11 || Nat.eqb n 12
   || Nat.eqb n 13 || Nat.eqb n 32)%bool.

Fixpoint skip_white (s : string) : string :=
  match s with
  | String c s' => if is_white c then skip_white s' else s
  | EmptyString => s
  end.

Definition digit_value (radix : Z) (c : ascii) : option Z :=
  let n := Z.of_nat (nat_of_ascii c) in
  let d := if (48 <=? n) && (n <=? 57) then n - 48
           else if (97 <=? n) && (n <=? 122) then n - 87
           else if (65 <=? n) && (n <=? 90) then n - 55
           else radix in
  if d <? radix then Some d else None.

Fixpoint leading_digits (radix : Z) (s : string) (acc : option Z) : option Z :=
  match s with
  | String c s' =>
      match digit_value radix c with
      | Some d =>
          leading_digits radix s'
            (Some (radix * match acc with Some a => a | None => 0 end + d))
      | None => acc
      end
  | EmptyString => acc
  end.

Definition parseInt_string (s : string) : number :=
  let s := skip_white s in
  let '(negative, s) :=
    match s with
    | String "-" s' => (true, s')
    | String "+" s' => (false, s')
    | _ => (false, s)
    end in
  let '(radix, s) :=
    match s with
    | String "0" (String "x" s') => (16, s')
    | String "0" (String "X" s') => (16, s')
    | _ => (10, s)
    end in
  match leading_digits radix s None with
  | Some n => Int (if negative then - n else n)
  | None => NaN
  end.

(** [parseInt(v)]: the argument is turned into a string and parsed; an
    integer comes back unchanged, ["undefined"] and ["NaN"] give NaN. *)
Definition parseInt (v : value) : number :=
  match v with
  | VUndefined => NaN
  | VNumber n => n
  | VString s => parseInt_string s
  end.

(** *** [Map]: insertion-ordered, here with numbers (or [undefined]) as
    values *)

Section Map.
Context {K : Type} (eqb : K -> K -> bool).

Definition Map : Type := list (K * option number).

Fixpoint get (m : Map) (k : K) : option number :=
  match m with
  | [] => undefined
  | (k', v) :: m' => if eqb k k' then v else get m' k
  end.

(** [set] keeps the position of a key that is already there. *)
Fixpoint set (m : Map) (k : K) (v : option number) : Map :=
  match m with
  | [] => [(k, v)]
  | (k', v') :: m' =>
      if eqb k k' then (k', v) :: m' else (k', v') :: set m' k v
  end.

Definition keys (m : Map) : list K := map fst m.
End Map.

(** *** [JSON.stringify] on objects whose members are numbers or objects *)

Definition dquote : string := String "034" "".

Definition json_number (n : number) : string :=
  match n with Int z => decimal z | NaN => "null" end.

(** A member whose value is [undefined] is left out. *)
Fixpoint json_members (ms : list (string * option string)) : list string :=
  match ms with
  | [] => []
  | (name, Some text) :: ms' =>
      (dquote ++ name ++ dquote ++ ":" ++ text)%string :: json_members ms'
  | (_, undefined) :: ms' => json_members ms'
  end.

Definition json_object (ms : list (string * option string)) : string :=
  ("{" ++ String.concat "," (json_members ms) ++ "}")%string.

End JS.

Import JS.

(** ** The classes of the source *)

(** [class Coordinate]: the X and Y pixel values. *)
Record Coordinate : Type := new_Coordinate
  { X : option number;
    Y : option number }.

(** [class TriangleCoordinates]: the three vertices. *)
Record TriangleCoordinates : Type := new_TriangleCoordinates
  { V1 : Coordinate;
    V2 : Coordinate;
    V3 : Coordinate }.

(** [JSON.stringify] of a vertex: its own members [X] and [Y], in the
    order the constructor assigned them. *)
Definition stringify_Coordinate (c : Coordinate) : string :=
  json_object [("X", option_map json_number (X c));
               ("Y", option_map json_number (Y c))].

(** [JSON.stringify(coords)]. *)
Definition JSON_stringify (coords : TriangleCoordinates) : string :=
  json_object [("V1", Some (stringify_Coordinate (V1 coords)));
               ("V2", Some (stringify_Coordinate (V2 coords)));
               ("V3", Some (stringify_Coordinate (V3 coords)))].

(** The fields of [class TriangleLayout]. *)
Record TriangleLayout : Type := new_TriangleLayout
  { SCALE : Z;
    ROW_CHARS : list string;
    ROW_MAP : Map (K := string);
    MAX_COLS : Z;
    COL_MAP : Map (K := Z) }.

(** ['...'.split('')]: the one-character strings of a string. *)
Fixpoint split_chars (s : string) : list string :=
  match s with
  | EmptyString => []
  | String c s' => String c "" :: split_chars s'
  end.

(** The integers [lo], [lo+1], ..., [hi-1] of a counting loop. *)
Definition range (lo hi : Z) : list Z :=
  map (fun k => lo + Z.of_nat k) (seq 0 (Z.to_nat (hi - lo))).

(** First loop of the constructor: [ROW_MAP.set(ROW_CHARS[i], SCALE * i)]
    for [i] from 0 while [i < ROW_CHARS.length]. *)
Fixpoint fill_rows (scale : Z) (chars : list string) (i : Z)
    (m : Map (K := string)) : Map (K := string) :=
  match chars with
  | [] => m
  | c :: chars' =>
      fill_rows scale chars' (i + 1)
        (set String.eqb m c (Some (times (Some (Int scale)) (Some (Int i)))))
  end.

(** Body of the second loop. *)
Definition fill_col (scale : Z) (m : Map (K := Z)) (i : Z) : Map (K := Z) :=
  let colVal :=
    if number_strict_eq (remainder (Some (Int i)) (Some (Int 2))) (Int 0)
    then get Z.eqb m (i - 1)
    else Some (plus (get Z.eqb m (i - 1)) (Some (Int scale))) in
  set Z.eqb m i colVal.

(** [constructor(scale)]: a falsy [scale] (missing, [0], NaN) becomes 10. *)
Definition constructor (scale : option number) : TriangleLayout :=
  let scale := if falsy scale then Some (Int 10) else scale in
  let SCALE := match scale with Some (Int z) => z | _ => 10 end in
  let ROW_CHARS := split_chars "ABCDEF" in
  let ROW_MAP := fill_rows SCALE ROW_CHARS 0 [] in
  let MAX_COLS := 12 in
  let COL_MAP :=
    fold_left (fill_col SCALE) (range 2 (MAX_COLS + 1))
      (set Z.eqb [] 1 (Some (Int 0))) in
  new_TriangleLayout SCALE ROW_CHARS ROW_MAP MAX_COLS COL_MAP.

(** [this.COL_MAP.get(col)] and [this.ROW_MAP.get(row)]: a key of another
    type than the map's keys is never found. *)
Definition COL_MAP_get (t : TriangleLayout) (col : option number)
    : option number :=
  match col with
  | Some (Int c) => get Z.eqb (COL_MAP t) c
  | _ => undefined
  end.

Definition ROW_MAP_get (t : TriangleLayout) (row : option string)
    : option number :=
  match row with
  | Some r => get String.eqb (ROW_MAP t) r
  | undefined => undefined
  end.

(** [calculateCoordinates(row, col)]. *)
Definition calculateCoordinates (t : TriangleLayout)
    (row : option string) (col : option number) : TriangleCoordinates :=
  let isEvenColumn :=
    number_strict_eq (remainder col (Some (Int 2))) (Int 0) in
  let x := COL_MAP_get t col in
  let y := ROW_MAP_get t row in
  let scale := Some (Int (SCALE t)) in
  new_TriangleCoordinates
    (if isEvenColumn then new_Coordinate (Some (plus x scale)) y
     else new_Coordinate x (Some (plus y scale)))
    (if isEvenColumn
     then new_Coordinate (Some (plus x scale)) (Some (plus y scale))
     else new_Coordinate x y)
    (if isEvenColumn then new_Coordinate x y
     else new_Coordinate (Some (plus x scale)) (Some (plus y scale))).

(** [getMapKeyUsingValue(map, val)]: the first key, in insertion order,
    with [val === map.get(key)]; [undefined] when the loop ends without
    one. *)
Definition getMapKeyUsingValue {K : Type} (eqb : K -> K -> bool)
    (m : Map (K := K)) (val : option number) : option K :=
  find (fun key => strict_eq val (get eqb m key)) (keys m).

(** [calculateRowAndColumn(coords)]: the array [[row, col]] it returns is
    the pair of its two elements. *)
Definition calculateRowAndColumn (t : TriangleLayout)
    (coords : TriangleCoordinates) : value * value :=
  let isOddColumn := gt (Y (V1 coords)) (Y (V2 coords)) in
  let '(x, y) :=
    if isOddColumn then (X (V2 coords), Y (V2 coords))
    else (X (V3 coords), Y (V3 coords)) in
  let col := option_map Int (getMapKeyUsingValue Z.eqb (COL_MAP t) x) in
  let col :=
    if isOddColumn then col
    else Some (plus (Some (parseInt (of_number col))) (Some (Int 1))) in
  let row := getMapKeyUsingValue String.eqb (ROW_MAP t) y in
  let actualCoords := calculateCoordinates t row col in
  if negb (JSON_stringify coords =? JSON_stringify actualCoords)%string
  then (VString "", VString "")
  else (of_string row, of_number col).

Local Open Scope string_scope.

(** How a call ends: with a value, or with a thrown string. *)
Inductive completion (A : Type) : Type :=
| Return (a : A)
| Throw (message : string).
Arguments Return {A} a.
Arguments Throw {A} message.

(** [this.ROW_CHARS.includes(row)]. *)
Definition includes (l : list string) (v : option string) : bool :=
  match v with
  | Some s => existsb (String.eqb s) l
  | undefined => false
  end.

(** [isValidRowAndCol(row, col)]. *)
Definition isValidRowAndCol (t : TriangleLayout)
    (row : option string) (col : option number) : completion bool :=
  if negb (includes (ROW_CHARS t) row)
  then Throw ("Row [" ++ ToString (of_string row)
              ++ "] is not a valid row character")
  else if isNaN col || lt col (Some (Int 1))
          || gt col (Some (Int (MAX_COLS t)))
  then Throw "Invalid column number"
  else Return true.

(** The line feed written ['\n'] in the source. *)
Definition nl : string := String "010" "".

(** [row === rowKey], a value against a string. *)
Definition strict_eq_string (v : value) (s : string) : bool :=
  match v with
  | VString s' => (s' =? s)%string
  | _ => false
  end.

(** Body of the inner loop of [testLayout], on the pair of the two
    accumulated strings [(testOutput, errors)]. *)
Definition testLayout_cell (t : TriangleLayout) (rowKey : string)
    (acc : string * string) (colKey : Z) : string * string :=
  let '(testOutput, errors) := acc in
  let testOutput := testOutput ++ "-----------------------" ++ nl in
  let testOutput :=
    testOutput ++ (("Finding coordinates for [" ++ rowKey) ++ decimal colKey)
               ++ "] ..." ++ nl in
  let coords := calculateCoordinates t (Some rowKey) (Some (Int colKey)) in
  let testOutput := testOutput ++ "Found coordinates:" ++ nl in
  let testOutput := testOutput ++ JSON_stringify coords ++ nl in
  let testOutput :=
    testOutput ++ "Using above coordinates to find row and column ..." ++ nl in
  let '(row, col) := calculateRowAndColumn t coords in
  let '(testOutput, errors) :=
    if strict_eq_string row rowKey
    then (testOutput ++ "Input row [" ++ rowKey
                     ++ "] matches calculated row [" ++ ToString row
                     ++ "]" ++ nl,
          errors)
    else (testOutput,
          errors ++ "Input [" ++ rowKey ++ decimal colKey
                 ++ "] does NOT match calculated row [" ++ ToString row
                 ++ "]" ++ nl) in
  if number_strict_eq (parseInt col) (parseInt (VNumber (Int colKey)))
  then (testOutput ++ "Input column [" ++ decimal colKey
                   ++ "] matches calculated column [" ++ ToString col
                   ++ "]" ++ nl,
        errors)
  else (testOutput,
        errors ++ "Input [" ++ rowKey ++ decimal colKey
               ++ "] does NOT match calculated column [" ++ ToString col
               ++ "]" ++ nl).

(** [testLayout()]. *)
Definition testLayout (t : TriangleLayout) : string :=
  let '(testOutput, errors) :=
    fold_left
      (fun acc rowKey =>
         fold_left (testLayout_cell t rowKey) (keys (COL_MAP t)) acc)
      (keys (ROW_MAP t)) ("", "") in
  let errors :=
    match errors with
    | EmptyString => "No errors found!" ++ nl
    | _ => "Found errors:" ++ nl ++ errors
    end in
  errors ++ testOutput.

Local Open Scope list_scope.
Local Open Scope Z_scope.

(** ** The page script

    The script that wires the page to the layout: each click handler reads
    the text of its input fields and writes one text to its result
    element; a handler is the function from the texts read to the text
    written.  The texts are ASCII. *)

Local Open Scope string_scope.

(** [s.charAt(0)]: the first character, or the empty string. *)
Definition charAt_0 (s : string) : string :=
  match s with
  | String c _ => String c EmptyString
  | EmptyString => EmptyString
  end.

(** [s.slice(1, s.length)]: all but the first character. *)
Definition slice_1 (s : string) : string :=
  match s with
  | String _ s' => s'
  | EmptyString => EmptyString
  end.

(** [s.split(sep)] for a separator of one character: always at least one
    part. *)
Fixpoint string_split (sep : ascii) (s : string) : list string :=
  match s with
  | EmptyString => [EmptyString]
  | String c s' =>
      if Ascii.eqb c sep then EmptyString :: string_split sep s'
      else match string_split sep s' with
           | part :: parts => String c part :: parts
           | [] => [String c EmptyString]
           end
  end.

(** Truthiness of a value: [undefined], NaN, [0] and [''] are falsy. *)
Definition truthy (v : value) : bool :=
  match v with
  | VUndefined => false
  | VNumber (Int z) => negb (z =? 0)%Z
  | VNumber NaN => false
  | VString EmptyString => false
  | VString (String _ _) => true
  end.

(** [a + b] on values: concatenation as soon as one side is a string. *)
Definition value_plus (a b : value) : value :=
  match a, b with
  | VString _, _ | _, VString _ => VString (ToString a ++ ToString b)
  | _, _ =>
      let number_of v :=
        match v with VNumber n => Some n | _ => undefined end in
      VNumber (plus (number_of a) (number_of b))
  end.

(** [JSON.stringify(value, null, gap)] with a non-empty [gap]: every member
    on a line of its own, indented by one more [gap] than the object, a
    space after the colon; an object without members is [{}]. *)
Fixpoint json_members_gap (ms : list (string * option string)) : list string :=
  match ms with
  | [] => []
  | (name, Some text) :: ms' =>
      (dquote ++ name ++ dquote ++ ": " ++ text) :: json_members_gap ms'
  | (_, undefined) :: ms' => json_members_gap ms'
  end.

Definition json_object_gap (stepback gap : string)
    (ms : list (string * option string)) : string :=
  let indent := stepback ++ gap in
  match json_members_gap ms with
  | [] => "{}"
  | partial =>
      "{" ++ nl ++ indent ++ String.concat ("," ++ nl ++ indent) partial
      ++ nl ++ stepback ++ "}"
  end.

Definition stringify_Coordinate_gap (stepback gap : string) (c : Coordinate)
    : string :=
  json_object_gap stepback gap
    [("X", option_map json_number (X c)); ("Y", option_map json_number (Y c))].

(** [JSON.stringify(coords, null, 2)]. *)
Definition JSON_stringify_2 (coords : TriangleCoordinates) : string :=
  let gap := "  " in
  json_object_gap "" gap
    [("V1", Some (stringify_Coordinate_gap gap gap (V1 coords)));
     ("V2", Some (stringify_Coordinate_gap gap gap (V2 coords)));
     ("V3", Some (stringify_Coordinate_gap gap gap (V3 coords)))].

(** [var triangleLayout = new TriangleLayout()]. *)
Definition triangleLayout : TriangleLayout := constructor undefined.

(** The click handler of [#coord-calc-btn]: from the text of
    [#row-col-input] to the text of [#coord-result]. *)
Definition coord_calc_btn_click (rowColInput : string) : string :=
  let row := charAt_0 rowColInput in
  let col := parseInt (VString (slice_1 rowColInput)) in
  match isValidRowAndCol triangleLayout (Some row) (Some col) with
  | Throw err => err
  | Return _ =>
      let coords := calculateCoordinates triangleLayout (Some row) (Some col) in
      JSON_stringify_2 coords
  end.

(** [var [x, y] = input.split(','); new Coordinate(parseInt(x), parseInt(y))]. *)
Definition parse_vertex (input : string) : Coordinate :=
  let parts := string_split "," input in
  new_Coordinate (Some (parseInt (of_string (nth_error parts 0))))
                 (Some (parseInt (of_string (nth_error parts 1)))).

(** The click handler of [#row-col-calc-btn]: from the texts of
    [#v1-input], [#v2-input] and [#v3-input] to the text of
    [#row-col-result]. *)
Definition row_col_calc_btn_click (v1 v2 v3 : string) : string :=
  let coords :=
    new_TriangleCoordinates (parse_vertex v1) (parse_vertex v2)
      (parse_vertex v3) in
  let '(row, col) := calculateRowAndColumn triangleLayout coords in
  if truthy row && truthy col then ToString (value_plus row col)
  else "Incorrect coordinates given".

(** The click handler of [#test-btn]. *)
Definition test_btn_click : string := testLayout triangleLayout.

Local Open Scope list_scope.
Local Open Scope Z_scope.

(** * The vocabulary of the statements *)

(** The vertex at integer pixels [(x, y)]. *)
Definition pixel (x y : Z) : Coordinate :=
  new_Coordinate (Some (Int x)) (Some (Int y)).

(** The six row symbols. *)
Definition row_symbols : list string := ["A"; "B"; "C"; "D"; "E"; "F"]%string.

(** A triple of vertices from six integers. *)
Definition triangle (x1 y1 x2 y2 x3 y3 : Z) : TriangleCoordinates :=
  new_TriangleCoordinates (pixel x1 y1) (pixel x2 y2) (pixel x3 y3).

(** The empty pair [['','']] with which the inverse map rejects its input. *)
Definition sentinel : value * value := (VString "", VString "").

(** A valid cell: a row among the row characters and a column in 1..MAX_COLS. *)
Definition valid_row (t : TriangleLayout) (row : string) : Prop :=
  In row (ROW_CHARS t).

Definition valid_col (t : TriangleLayout) (col : Z) : Prop :=
  1 <= col <= MAX_COLS t.

(** The cells of the full grid, row by row. *)
Definition grid : list (string * Z) :=
  list_prod row_symbols [1; 2; 3; 4; 5; 6; 7; 8; 9; 10; 11; 12].


Local Open Scope string_scope.



(** The two errors of the guard, by the string each one throws. *)
Definition InvalidRow (row : option string) : completion bool :=
  Throw ("Row [" ++ ToString (of_string row) ++ "] is not a valid row character").

Definition InvalidColumn : completion bool := Throw "Invalid column number".

(** The row is one of the six symbols. *)
Definition is_row_symbol (row : option string) : Prop :=
  exists s, row = Some s /\ In s row_symbols.

(** The column is not a number, or is below 1, or is above 12. *)
Definition column_invalid (col : option number) : Prop :=
  match col with
  | Some (Int z) => z < 1 \/ 12 < z
  | Some NaN => True
  | undefined => True
  end.

Local Open Scope list_scope.
Local Open Scope Z_scope.

(** Reading a printed integer back: the characters of a printed integer
    are a minus sign and digits. *)
Definition is_decimal_char (c : ascii) : bool :=
  let n := nat_of_ascii c in
  (Nat.eqb n 45 || (Nat.leb 48 n && Nat.leb n 57))%bool.

Fixpoint all_decimal (s : string) : bool :=
  match s with
  | EmptyString => true
  | String c s' => is_decimal_char c && all_decimal s'
  end.

(** The longest prefix of such characters, and what follows it. *)
Fixpoint decimal_prefix (s : string) : string * string :=
  match s with
  | EmptyString => (EmptyString, EmptyString)
  | String c s' =>
      if is_decimal_char c
      then let (p, r) := decimal_prefix s' in (String c p, r)
      else (EmptyString, s)
  end.

(** Every field of a triple is a number or NaN, none is [undefined]. *)
Definition all_defined (coords : TriangleCoordinates) : Prop :=
  X (V1 coords) <> undefined /\ Y (V1 coords) <> undefined
  /\ X (V2 coords) <> undefined /\ Y (V2 coords) <> undefined
  /\ X (V3 coords) <> undefined /\ Y (V3 coords) <> undefined.

(** Some field of the triple is NaN. *)
Definition some_NaN (coords : TriangleCoordinates) : Prop :=
  X (V1 coords) = Some NaN \/ Y (V1 coords) = Some NaN
  \/ X (V2 coords) = Some NaN \/ Y (V2 coords) = Some NaN
  \/ X (V3 coords) = Some NaN \/ Y (V3 coords) = Some NaN.

(** The two comparisons [testLayout] makes on a cell. *)
Definition cell_passes (t : TriangleLayout) (cell : string * Z) : bool :=
  let '(rowKey, colKey) := cell in
  let '(row, col) :=
    calculateRowAndColumn t
      (calculateCoordinates t (Some rowKey) (Some (Int colKey))) in
  strict_eq_string row rowKey
  && number_strict_eq (parseInt col) (Int colKey).

(** No error has been written so far. *)
Definition no_errors (acc : string * string) : bool :=
  match snd acc with
  | EmptyString => true
  | String _ _ => false
  end.

(** The characters ['0'] to ['9']. *)
Definition is_digit_char (c : ascii) : bool :=
  let n := nat_of_ascii c in (Nat.leb 48 n && Nat.leb n 57)%bool.

Fixpoint all_digits (s : string) : bool :=
  match s with
  | EmptyString => true
  | String c s' => is_digit_char c && all_digits s'
  end.

(** The text of an integer vertex, as one types it: [x,y]. *)
Definition vertex_text (x y : Z) : string :=
  (decimal x ++ "," ++ decimal y)%string.

(** * Properties *)

(** ** [JSON.stringify] tells integer triples apart *)

Lemma append_assoc (a b c : string) :
  ((a ++ b) ++ c)%string = (a ++ (b ++ c))%string.
Proof. induction a as [ | x a IH]; cbn; [reflexivity | now rewrite IH]. Qed.



Lemma decimal_prefix_append s c r :
  all_decimal s = true -> is_decimal_char c = false ->
  decimal_prefix (s ++ String c r) = (s, String c r).
Proof.
  intros Hs Hc. induction s as [ | x s IH]; cbn [append decimal_prefix].
  - now rewrite Hc.
  - cbn [all_decimal] in Hs. apply andb_prop in Hs as [Hx Hs].
    now rewrite Hx, (IH Hs).
Qed.

Lemma all_decimal_uint d :
  all_decimal (NilEmpty.string_of_uint d) = true.
Proof. induction d; cbn [NilEmpty.string_of_uint all_decimal]; auto. Qed.

Lemma all_decimal_decimal z : all_decimal (decimal z) = true.
Proof.
  unfold decimal.
  destruct (Z.to_int z) as [d | d]; cbn [NilZero.string_of_int all_decimal];
    destruct d; try reflexivity; apply all_decimal_uint.
Qed.

Lemma decimal_nonempty z : decimal z <> EmptyString.
Proof.
  unfold decimal. destruct z as [ | p | p]; cbn [Z.to_int NilZero.string_of_int].
  - discriminate.
  - destruct (Pos.to_uint p); discriminate.
  - discriminate.
Qed.

Lemma decimal_inj a b : decimal a = decimal b -> a = b.
Proof.
  assert (Hnil : forall z, Z.to_int z <> Decimal.Pos Decimal.Nil
                           /\ Z.to_int z <> Decimal.Neg Decimal.Nil).
  { intros [ | p | p]; cbn [Z.to_int]; split; try discriminate;
      intros [= H]; now apply (DecimalPos.Unsigned.to_uint_nonnil p). }
  unfold decimal. intros H.
  apply (f_equal NilZero.int_of_string) in H.
  rewrite !NilZero.isi in H by apply Hnil.
  apply DecimalZ.to_int_inj. congruence.
Qed.

(** A printed integer followed by another character is read back
    unambiguously, whatever JSON number stands on the other side. *)
Lemma decimal_append_inj a n c c' r r' :
  is_decimal_char c = false -> is_decimal_char c' = false ->
  (decimal a ++ String c r)%string = (json_number n ++ String c' r')%string ->
  n = Int a /\ c = c' /\ r = r'.
Proof.
  intros Hc Hc' H. apply (f_equal decimal_prefix) in H.
  rewrite (decimal_prefix_append _ c r (all_decimal_decimal a) Hc) in H.
  destruct n as [b | ]; cbn [json_number] in H.
  - rewrite (decimal_prefix_append _ c' r' (all_decimal_decimal b) Hc') in H.
    injection H as Hab -> ->. apply decimal_inj in Hab. now subst.
  - cbn in H. injection H as Habs _. now apply decimal_nonempty in Habs.
Qed.

Ltac json_normalize H :=
  unfold JSON_stringify, stringify_Coordinate, json_object, pixel in H;
  cbn [V1 V2 V3 X Y option_map json_members String.concat] in H;
  rewrite ?append_assoc in H;
  cbn [append dquote] in H.

(** The text of a vertex at integer pixels is the text of no other
    vertex, also when more text follows. *)
Lemma stringify_Coordinate_append_inj x y c r r' :
  (stringify_Coordinate (pixel x y) ++ r)%string
  = (stringify_Coordinate c ++ r')%string ->
  c = pixel x y /\ r = r'.
Proof.
  intros H. destruct c as [[nx | ] [ny | ]]; json_normalize H;
    cbn [json_number] in H; try discriminate H; injection H as H.
  - apply decimal_append_inj in H as (-> & _ & H); [ | reflexivity ..].
    injection H as H.
    apply decimal_append_inj in H as (-> & _ & ->); [ | reflexivity ..].
    split; reflexivity.
  - apply decimal_append_inj in H as (_ & Habs & _); [ | reflexivity ..].
    discriminate Habs.
Qed.

(** [JSON.stringify] separates a triple of integer vertices from every
    other triple, so comparing the two texts compares the triples. *)
Lemma JSON_stringify_inj x1 y1 x2 y2 x3 y3 coords :
  JSON_stringify
    (new_TriangleCoordinates (pixel x1 y1) (pixel x2 y2) (pixel x3 y3))
  = JSON_stringify coords ->
  coords = new_TriangleCoordinates (pixel x1 y1) (pixel x2 y2) (pixel x3 y3).
Proof.
  intros H. destruct coords as [c1 c2 c3].
  unfold JSON_stringify, json_object in H. cbn [V1 V2 V3] in H.
  remember (stringify_Coordinate (pixel x1 y1)) as p1 eqn:E1.
  remember (stringify_Coordinate (pixel x2 y2)) as p2 eqn:E2.
  remember (stringify_Coordinate (pixel x3 y3)) as p3 eqn:E3.
  remember (stringify_Coordinate c1) as q1 eqn:F1.
  remember (stringify_Coordinate c2) as q2 eqn:F2.
  remember (stringify_Coordinate c3) as q3 eqn:F3.
  cbn [json_members String.concat] in H.
  rewrite ?append_assoc in H. cbn [append dquote] in H.
  injection H as H. rewrite E1, F1 in H.
  apply stringify_Coordinate_append_inj in H as (-> & H).
  injection H as H. rewrite E2, F2 in H.
  apply stringify_Coordinate_append_inj in H as (-> & H).
  injection H as H. rewrite E3, F3 in H.
  apply stringify_Coordinate_append_inj in H as (-> & _).
  reflexivity.
Qed.

(** ** What the forward map needs to give integers *)

Lemma get_In_keys {K : Type} (eqb : K -> K -> bool) (m : Map (K := K)) k v :
  (forall a b, eqb a b = true -> a = b) ->
  get eqb m k = Some v -> In k (keys m).
Proof.
  intros Heqb. induction m as [ | [k' v'] m IH]; cbn [get keys map fst].
  - discriminate.
  - destruct (eqb k k') eqn:E.
    + intros _. left. symmetry. now apply Heqb.
    + intros H. right. now apply IH.
Qed.

(** A triple of integer vertices only comes out of a row and a column that
    are keys of the two maps. *)
Lemma calculateCoordinates_integer t row col x1 y1 x2 y2 x3 y3 :
  calculateCoordinates t row col
  = new_TriangleCoordinates (pixel x1 y1) (pixel x2 y2) (pixel x3 y3) ->
  exists r c, row = Some r /\ col = Some (Int c)
              /\ In r (keys (ROW_MAP t)) /\ In c (keys (COL_MAP t)).
Proof.
  intros H.
  assert (Hxy : exists x y, COL_MAP_get t col = Some (Int x)
                            /\ ROW_MAP_get t row = Some (Int y)).
  { unfold calculateCoordinates in H.
    destruct (number_strict_eq _ _).
    - exists x3, y3.
      split; [exact (f_equal (fun c => X (V3 c)) H)
             | exact (f_equal (fun c => Y (V3 c)) H)].
    - exists x2, y2.
      split; [exact (f_equal (fun c => X (V2 c)) H)
             | exact (f_equal (fun c => Y (V2 c)) H)]. }
  destruct Hxy as (x & y & Hx & Hy).
  destruct row as [r | ]; [ | discriminate Hy].
  destruct col as [[c | ] | ]; try discriminate Hx.
  exists r, c. cbn [COL_MAP_get ROW_MAP_get] in Hx, Hy.
  repeat split.
  - apply (get_In_keys String.eqb _ _ _ (fun a b => proj1 (String.eqb_eq a b)) Hy).
  - apply (get_In_keys Z.eqb _ _ _ (fun a b => proj1 (Z.eqb_eq a b)) Hx).
Qed.

(** ** The layout built by the constructor *)

Section Layout.

Variable scale : Z.
Hypothesis scale_pos : 0 < scale.

Local Abbreviation t := (constructor (Some (Int scale))).

Lemma constructor_SCALE : SCALE t = scale.
Proof.
  unfold constructor; cbn [falsy SCALE].
  destruct (Z.eqb_spec scale 0); [lia | reflexivity].
Qed.

Lemma constructor_ROW_CHARS :
  ROW_CHARS t = ["A"; "B"; "C"; "D"; "E"; "F"]%string.
Proof. reflexivity. Qed.

Lemma constructor_MAX_COLS : MAX_COLS t = 12.
Proof. reflexivity. Qed.

Lemma constructor_ROW_MAP :
  ROW_MAP t =
  [("A", Some (Int (scale * 0))); ("B", Some (Int (scale * 1)));
   ("C", Some (Int (scale * 2))); ("D", Some (Int (scale * 3)));
   ("E", Some (Int (scale * 4))); ("F", Some (Int (scale * 5)))]%string.
Proof.
  unfold constructor; cbn [falsy ROW_MAP].
  destruct (Z.eqb_spec scale 0); [lia | reflexivity].
Qed.

Lemma constructor_COL_MAP :
  COL_MAP t =
  [(1, Some (Int (scale * 0))); (2, Some (Int (scale * 0)));
   (3, Some (Int (scale * 1))); (4, Some (Int (scale * 1)));
   (5, Some (Int (scale * 2))); (6, Some (Int (scale * 2)));
   (7, Some (Int (scale * 3))); (8, Some (Int (scale * 3)));
   (9, Some (Int (scale * 4))); (10, Some (Int (scale * 4)));
   (11, Some (Int (scale * 5))); (12, Some (Int (scale * 5)))].
Proof.
  unfold constructor; cbn [falsy COL_MAP].
  destruct (Z.eqb_spec scale 0); [lia | ].
  change (range 2 (12 + 1)) with [2; 3; 4; 5; 6; 7; 8; 9; 10; 11; 12].
  cbn.
  repeat (f_equal; try lia).
Qed.

(** Splitting the two finite ranges into their cases. *)
Lemma valid_col_cases c :
  valid_col t c ->
  c = 1 \/ c = 2 \/ c = 3 \/ c = 4 \/ c = 5 \/ c = 6 \/
  c = 7 \/ c = 8 \/ c = 9 \/ c = 10 \/ c = 11 \/ c = 12.
Proof. unfold valid_col; rewrite constructor_MAX_COLS; lia. Qed.

(** The 0-based position of a row character in [ROW_CHARS]. *)
Lemma valid_row_index r :
  valid_row t r ->
  exists i, nth_error (ROW_CHARS t) i = Some r /\ (i < 6)%nat.
Proof.
  intros H. apply In_nth_error in H. destruct H as [i H]. exists i.
  split; [exact H | ].
  change 6%nat with (List.length (ROW_CHARS t)).
  apply nth_error_Some; congruence.
Qed.

Lemma COL_MAP_get_valid c :
  valid_col t c ->
  get Z.eqb (COL_MAP t) c = Some (Int (scale * ((c - 1) / 2))).
Proof.
  intros H. rewrite constructor_COL_MAP.
  destruct (valid_col_cases c H)
    as [-> | [-> | [-> | [-> | [-> | [-> | [-> | [-> | [-> | [-> | [-> | ->]]]]]]]]]]];
    reflexivity.
Qed.

Lemma ROW_MAP_get_nth i r :
  nth_error (ROW_CHARS t) i = Some r ->
  get String.eqb (ROW_MAP t) r = Some (Int (scale * Z.of_nat i)).
Proof.
  rewrite constructor_ROW_MAP, constructor_ROW_CHARS.
  do 6 (destruct i as [ | i]; [intros [= <-]; reflexivity | ]).
  destruct i; discriminate.
Qed.

Ltac decide_eqb :=
  repeat match goal with
         | |- context [Z.eqb ?a ?b] =>
             destruct (Z.eqb_spec a b); [ try lia | try lia ]
         end.

(** The first key whose pixel value is [scale * k] is the odd column of
    the pair that shares it. *)
Lemma COL_MAP_key k :
  0 <= k <= 5 ->
  getMapKeyUsingValue Z.eqb (COL_MAP t) (Some (Int (scale * k)))
  = Some (2 * k + 1).
Proof.
  intros H. rewrite constructor_COL_MAP.
  assert (k = 0 \/ k = 1 \/ k = 2 \/ k = 3 \/ k = 4 \/ k = 5)
    as [-> | [-> | [-> | [-> | [-> | ->]]]]] by lia;
    unfold getMapKeyUsingValue; cbn [keys map fst find];
    cbn [get Z.eqb Pos.eqb strict_eq number_strict_eq];
    decide_eqb; reflexivity.
Qed.

Lemma ROW_MAP_key i r :
  nth_error (ROW_CHARS t) i = Some r ->
  getMapKeyUsingValue String.eqb (ROW_MAP t)
    (Some (Int (scale * Z.of_nat i)))
  = Some r.
Proof.
  rewrite constructor_ROW_MAP, constructor_ROW_CHARS.
  do 6 (destruct i as [ | i];
        [intros [= <-];
         unfold getMapKeyUsingValue; cbn [keys map fst find];
         cbn [get String.eqb Ascii.eqb Bool.eqb strict_eq number_strict_eq
              Z.of_nat Pos.of_succ_nat Pos.succ];
         decide_eqb; reflexivity | ]).
  destruct i; discriminate.
Qed.

(** [col % 2 === 0] on an integer column. *)
Lemma isEvenColumn_even c :
  number_strict_eq (remainder (Some (Int c)) (Some (Int 2))) (Int 0)
  = Z.even c.
Proof. cbn. symmetry. apply Zquot.Zeven_rem. Qed.

(** The forward map in closed form, by row position and column. *)
Lemma calculateCoordinates_closed i r c :
  nth_error (ROW_CHARS t) i = Some r ->
  valid_col t c ->
  calculateCoordinates t (Some r) (Some (Int c)) =
  let x := scale * ((c - 1) / 2) in
  let y := scale * Z.of_nat i in
  if Z.even c
  then new_TriangleCoordinates
         (pixel (x + scale) y) (pixel (x + scale) (y + scale)) (pixel x y)
  else new_TriangleCoordinates
         (pixel x (y + scale)) (pixel x y) (pixel (x + scale) (y + scale)).
Proof.
  intros Hr Hc. unfold calculateCoordinates.
  rewrite isEvenColumn_even. cbn [COL_MAP_get ROW_MAP_get].
  rewrite (COL_MAP_get_valid c Hc), (ROW_MAP_get_nth i r Hr), constructor_SCALE.
  destruct (Z.even c); reflexivity.
Qed.

(** The inverse map undoes the forward map on every valid cell. *)
Lemma calculateRowAndColumn_calculateCoordinates r c :
  valid_row t r -> valid_col t c ->
  calculateRowAndColumn t (calculateCoordinates t (Some r) (Some (Int c)))
  = (VString r, VNumber (Int c)).
Proof.
  intros Hr Hc. destruct (valid_row_index r Hr) as (i & Hi & _).
  assert (Hk : 0 <= (c - 1) / 2 <= 5
               /\ c = 2 * ((c - 1) / 2) + (if Z.even c then 2 else 1)).
  { destruct (valid_col_cases c Hc)
      as [-> | [-> | [-> | [-> | [-> | [-> | [-> | [-> | [-> | [-> | [-> | ->]]]]]]]]]]];
      cbn; lia. }
  destruct Hk as [Hk Hpar].
  pose proof (calculateCoordinates_closed i r c Hi Hc) as Hfwd.
  cbv zeta in Hfwd. unfold calculateRowAndColumn. rewrite Hfwd.
  destruct (Z.even c) eqn:Heven;
    cbn [V1 V2 V3 X Y pixel gt ToNumber]; rewrite Z.gtb_ltb.
  - destruct (Z.ltb_spec (scale * Z.of_nat i + scale) (scale * Z.of_nat i));
      [lia | ].
    rewrite (COL_MAP_key _ Hk), (ROW_MAP_key i r Hi).
    cbn [option_map of_number parseInt plus ToNumber].
    replace (2 * ((c - 1) / 2) + 1 + 1) with c by lia.
    rewrite Hfwd, String.eqb_refl. reflexivity.
  - destruct (Z.ltb_spec (scale * Z.of_nat i) (scale * Z.of_nat i + scale));
      [ | lia].
    rewrite (COL_MAP_key _ Hk), (ROW_MAP_key i r Hi).
    cbn [option_map].
    replace (2 * ((c - 1) / 2) + 1) with c by lia.
    rewrite Hfwd, String.eqb_refl. reflexivity.
Qed.

Lemma constructor_keys :
  keys (ROW_MAP t) = ROW_CHARS t
  /\ keys (COL_MAP t) = [1; 2; 3; 4; 5; 6; 7; 8; 9; 10; 11; 12].
Proof.
  rewrite constructor_ROW_MAP, constructor_COL_MAP. split; reflexivity.
Qed.

(** Whatever the inverse map returns besides the sentinel is a valid cell
    whose vertices are the input. *)
Lemma calculateRowAndColumn_sound x1 y1 x2 y2 x3 y3 :
  let coords :=
    new_TriangleCoordinates (pixel x1 y1) (pixel x2 y2) (pixel x3 y3) in
  calculateRowAndColumn t coords = (VString "", VString "")
  \/ exists r c,
       valid_row t r /\ valid_col t c
       /\ calculateRowAndColumn t coords = (VString r, VNumber (Int c))
       /\ calculateCoordinates t (Some r) (Some (Int c)) = coords.
Proof.
  intros coords. unfold calculateRowAndColumn.
  destruct (gt (Y (V1 coords)) (Y (V2 coords)));
    match goal with
    | |- context [calculateCoordinates t ?row ?col] =>
        destruct (String.eqb_spec (JSON_stringify coords)
                    (JSON_stringify (calculateCoordinates t row col)))
          as [E | _]; [right | left; reflexivity];
        apply JSON_stringify_inj in E;
        destruct (calculateCoordinates_integer _ _ _ _ _ _ _ _ _ E)
          as (r & c & Hr & Hc & Inr & Inc);
        rewrite Hr, Hc in *; exists r, c
    end.
  all: destruct constructor_keys as [Kr Kc]; rewrite Kr in Inr; rewrite Kc in Inc.
  all: split; [exact Inr | split; [ | split; [reflexivity | exact E]]].
  all: unfold valid_col; change (MAX_COLS t) with 12; cbn [In] in Inc; lia.
Qed.





End Layout.

(** * The specification's claims *)






(** C3 (the inverse map is total and exact).  [calculateRowAndColumn] is
    a total function: on every triple of integer vertices it returns a
    pair and has no way to throw.  It returns the sentinel exactly when no
    valid cell has these vertices; otherwise it returns a valid cell whose
    vertices are the input.  The triple (1,1), (2,2), (3,3) gets the
    sentinel. *)
Theorem calculateRowAndColumn_total_exact :
  forall (scale x1 y1 x2 y2 x3 y3 : Z),
    0 < scale ->
    let t := constructor (Some (Int scale)) in
    let coords := triangle x1 y1 x2 y2 x3 y3 in
    (calculateRowAndColumn t coords = sentinel
     <-> ~ exists row col,
           In row row_symbols /\ 1 <= col <= 12
           /\ calculateCoordinates t (Some row) (Some (Int col)) = coords)
    /\ (calculateRowAndColumn t coords <> sentinel ->
        exists row col,
          In row row_symbols /\ 1 <= col <= 12
          /\ calculateRowAndColumn t coords = (VString row, VNumber (Int col))
          /\ calculateCoordinates t (Some row) (Some (Int col)) = coords)
    /\ calculateRowAndColumn t (triangle 1 1 2 2 3 3) = sentinel.
Proof.
  intros scale x1 y1 x2 y2 x3 y3 Hs t coords.
  assert (Hsound : forall a1 b1 a2 b2 a3 b3,
             calculateRowAndColumn t (triangle a1 b1 a2 b2 a3 b3) <> sentinel ->
             exists row col,
               In row row_symbols /\ 1 <= col <= 12
               /\ calculateRowAndColumn t (triangle a1 b1 a2 b2 a3 b3)
                  = (VString row, VNumber (Int col))
               /\ calculateCoordinates t (Some row) (Some (Int col))
                  = triangle a1 b1 a2 b2 a3 b3).
  { intros a1 b1 a2 b2 a3 b3 Hne.
    destruct (calculateRowAndColumn_sound scale Hs a1 b1 a2 b2 a3 b3)
      as [Hsent | (r & c & Hr & Hc & Hres & Hfwd)].
    - contradiction.
    - exists r, c. repeat split; try assumption; apply Hc. }
  assert (Hcomplete : forall a1 b1 a2 b2 a3 b3,
             (exists row col,
                 In row row_symbols /\ 1 <= col <= 12
                 /\ calculateCoordinates t (Some row) (Some (Int col))
                    = triangle a1 b1 a2 b2 a3 b3) ->
             calculateRowAndColumn t (triangle a1 b1 a2 b2 a3 b3) <> sentinel).
  { intros a1 b1 a2 b2 a3 b3 (r & c & Hr & Hc & Hfwd). rewrite <- Hfwd.
    subst t.
    rewrite (calculateRowAndColumn_calculateCoordinates scale Hs r c Hr Hc).
    discriminate. }
  assert (Hdec : forall a1 b1 a2 b2 a3 b3,
             calculateRowAndColumn t (triangle a1 b1 a2 b2 a3 b3) = sentinel
             \/ calculateRowAndColumn t (triangle a1 b1 a2 b2 a3 b3) <> sentinel).
  { intros a1 b1 a2 b2 a3 b3.
    destruct (calculateRowAndColumn_sound scale Hs a1 b1 a2 b2 a3 b3)
      as [Hsent | (r & c & _ & _ & Hres & _)].
    - left. exact Hsent.
    - right. fold t in Hres. unfold triangle. rewrite Hres. discriminate. }
  split; [split | split].
  - intros Hsent Hex. exact (Hcomplete _ _ _ _ _ _ Hex Hsent).
  - intros Hnone. destruct (Hdec x1 y1 x2 y2 x3 y3) as [Hsent | Hne].
    + exact Hsent.
    + exfalso. apply Hnone.
      destruct (Hsound _ _ _ _ _ _ Hne) as (r & c & Hr & Hc & _ & Hfwd).
      exists r, c. auto.
  - apply Hsound.
  - destruct (Hdec 1 1 2 2 3 3) as [Hsent | Hne]; [exact Hsent | exfalso].
    destruct (Hsound _ _ _ _ _ _ Hne) as (r & c & Hr & Hc & _ & Hfwd).
    destruct (valid_row_index scale r Hr) as (i & Hi & _).
    subst t.
    rewrite (calculateCoordinates_closed scale Hs i r c Hi Hc) in Hfwd.
    cbv zeta in Hfwd. unfold triangle, pixel in Hfwd.
    destruct (Z.even c); injection Hfwd; intros; lia.
Qed.

Lemma calculateRowAndColumn_total_exact_witness :
  calculateRowAndColumn (constructor (Some (Int 10))) (triangle 1 1 2 2 3 3)
  = sentinel.
Proof.
  apply (calculateRowAndColumn_total_exact 10 1 1 2 2 3 3).
  reflexivity.
Defined.












Lemma includes_row_symbols (row : option string) :
  includes row_symbols row = true <-> is_row_symbol row.
Proof.
  unfold is_row_symbol, includes. destruct row as [s | ].
  - rewrite existsb_exists. split.
    + intros (x & Hin & Heq). apply String.eqb_eq in Heq. subst x.
      exists s. auto.
    + intros (x & [= <-] & Hin). exists s. split; [exact Hin | ].
      apply String.eqb_refl.
  - split; [discriminate | intros (x & Hx & _); discriminate Hx].
Qed.

Lemma column_check (col : option number) :
  (isNaN col || lt col (Some (Int 1)) || gt col (Some (Int 12)))%bool = true
  <-> column_invalid col.
Proof.
  destruct col as [[z | ] | ]; cbn; try tauto.
  rewrite Z.gtb_ltb, orb_true_iff, !Z.ltb_lt. tauto.
Qed.

(** The guard in one equation: row check first, then column check. *)
Lemma isValidRowAndCol_cases (scale : option number) row col :
  isValidRowAndCol (constructor scale) row col
  = if includes row_symbols row
    then if (isNaN col || lt col (Some (Int 1)) || gt col (Some (Int 12)))%bool
         then InvalidColumn
         else Return true
    else InvalidRow row.
Proof.
  unfold isValidRowAndCol.
  change (ROW_CHARS (constructor scale)) with row_symbols.
  change (MAX_COLS (constructor scale)) with 12.
  destruct (includes row_symbols row); reflexivity.
Qed.

(** C9 (validation guard).  [isValidRowAndCol] throws the row error exactly
    when the row is not one of the six symbols; it throws the column error
    exactly when the row is one of them and the column is not a number, is
    below 1 or is above 12; it returns true exactly when neither is the
    case.  So ('Z',1) has the row error, ('A',13) and ('A',0) the column
    error, and ('A',1) is true. *)
Theorem isValidRowAndCol_guard :
  forall (scale row col : _),
    let t := constructor scale in
    (isValidRowAndCol t row col = InvalidRow row <-> ~ is_row_symbol row)
    /\ (isValidRowAndCol t row col = InvalidColumn
        <-> is_row_symbol row /\ column_invalid col)
    /\ (isValidRowAndCol t row col = Return true
        <-> is_row_symbol row /\ ~ column_invalid col)
    /\ isValidRowAndCol t (Some "Z"%string) (Some (Int 1))
       = InvalidRow (Some "Z"%string)
    /\ isValidRowAndCol t (Some "A"%string) (Some (Int 13)) = InvalidColumn
    /\ isValidRowAndCol t (Some "A"%string) (Some (Int 0)) = InvalidColumn
    /\ isValidRowAndCol t (Some "A"%string) (Some (Int 1)) = Return true.
Proof.
  intros scale row col t. subst t.
  rewrite !isValidRowAndCol_cases.
  pose proof (includes_row_symbols row) as Hrow.
  pose proof (column_check col) as Hcol.
  destruct (includes row_symbols row);
    destruct (isNaN col || lt col (Some (Int 1)) || gt col (Some (Int 12)))%bool;
    unfold InvalidRow, InvalidColumn;
    repeat apply conj; try reflexivity;
    try (intros H; try discriminate H; intuition congruence).
Qed.

(** C10 (the row check comes first).  When the row is not one of the six
    symbols and the column is invalid too, the guard throws the row error
    and not the column error. *)
Theorem isValidRowAndCol_row_first :
  forall (scale : option number) (row : option string) (col : option number),
    ~ is_row_symbol row -> column_invalid col ->
    let t := constructor scale in
    isValidRowAndCol t row col = InvalidRow row
    /\ isValidRowAndCol t row col <> InvalidColumn.
Proof.
  intros scale row col Hrow _ t. subst t.
  rewrite isValidRowAndCol_cases.
  destruct (includes row_symbols row) eqn:E.
  - exfalso. apply Hrow. now apply includes_row_symbols.
  - split; [reflexivity | discriminate].
Qed.

Lemma isValidRowAndCol_row_first_witness :
  isValidRowAndCol (constructor None) (Some "Z"%string) (Some (Int 13))
  = InvalidRow (Some "Z"%string)
  /\ isValidRowAndCol (constructor None) (Some "Z"%string) (Some (Int 13))
     <> InvalidColumn.
Proof.
  apply (isValidRowAndCol_row_first None (Some "Z"%string) (Some (Int 13))).
  - intros (s & [= <-] & Hin). cbn in Hin.
    repeat (destruct Hin as [Hin | Hin]; [discriminate Hin | ]). exact Hin.
  - cbn. lia.
Defined.

(** * Further properties of the code *)

(** ** [getMapKeyUsingValue] on any map *)

(** X1.  When [getMapKeyUsingValue] returns a key, it is a key of the map
    whose value is strictly equal to [val], and no key inserted before it
    has such a value. *)
Theorem getMapKeyUsingValue_first :
  forall (K : Type) (eqb : K -> K -> bool) (m : Map (K := K))
         (val : option number) (key : K),
    getMapKeyUsingValue eqb m val = Some key ->
    exists before after,
      keys m = before ++ key :: after
      /\ strict_eq val (get eqb m key) = true
      /\ forall k, In k before -> strict_eq val (get eqb m k) = false.
Proof.
  intros K eqb m val key. unfold getMapKeyUsingValue.
  generalize (keys m) as l.
  induction l as [ | k l IH]; cbn [find]; [discriminate | ].
  destruct (strict_eq val (get eqb m k)) eqn:E.
  - intros [= <-]. exists [], l. repeat apply conj; [reflexivity | exact E | ].
    intros k' [].
  - intros H. destruct (IH H) as (before & after & Hl & Hkey & Hbefore).
    exists (k :: before), after. repeat apply conj.
    + cbn. now rewrite Hl.
    + exact Hkey.
    + intros k' [<- | Hin]; [exact E | now apply Hbefore].
Qed.

Lemma getMapKeyUsingValue_first_witness :
  exists before after,
    keys (COL_MAP (constructor None)) = before ++ 5 :: after
    /\ strict_eq (Some (Int 20)) (get Z.eqb (COL_MAP (constructor None)) 5)
       = true
    /\ forall k, In k before ->
         strict_eq (Some (Int 20)) (get Z.eqb (COL_MAP (constructor None)) k)
         = false.
Proof.
  apply (getMapKeyUsingValue_first Z Z.eqb (COL_MAP (constructor None))
           (Some (Int 20)) 5).
  reflexivity.
Defined.

(** X2.  [getMapKeyUsingValue] returns [undefined] exactly when no key of
    the map has a value strictly equal to [val]; a NaN is never found, not
    even in a map that stores one. *)
Theorem getMapKeyUsingValue_undefined :
  forall (K : Type) (eqb : K -> K -> bool) (m : Map (K := K))
         (val : option number),
    (getMapKeyUsingValue eqb m val = undefined
     <-> forall k, In k (keys m) -> strict_eq val (get eqb m k) = false)
    /\ getMapKeyUsingValue eqb m (Some NaN) = undefined.
Proof.
  intros K eqb m val.
  assert (Hiff : forall v,
             getMapKeyUsingValue eqb m v = undefined
             <-> forall k, In k (keys m) -> strict_eq v (get eqb m k) = false).
  { intros v. unfold getMapKeyUsingValue. split.
    - intros H k Hin. exact (find_none _ _ H k Hin).
    - intros H. generalize (keys m) H. clear H.
      induction l as [ | k l IH]; cbn [find]; intros H; [reflexivity | ].
      rewrite (H k (or_introl eq_refl)). apply IH.
      intros k' Hin. apply H. now right. }
  split; [apply Hiff | ].
  apply Hiff. intros k _. cbn. now destruct (get eqb m k) as [[z | ] | ].
Qed.

(** ** The layout of any constructor argument *)

(** Whatever is passed to the constructor, the layout is the one of a
    non-zero integer scale. *)
Lemma constructor_normal (arg : option number) :
  exists scale, scale <> 0 /\ constructor arg = constructor (Some (Int scale)).
Proof.
  destruct arg as [[z | ] | ].
  - destruct (Z.eq_dec z 0) as [-> | Hz].
    + exists 10. split; [discriminate | reflexivity].
    + exists z. split; [exact Hz | reflexivity].
  - exists 10. split; [discriminate | reflexivity].
  - exists 10. split; [discriminate | reflexivity].
Qed.

Section AnyScale.

Variable scale : Z.
Hypothesis scale_nonzero : scale <> 0.

Local Abbreviation t := (constructor (Some (Int scale))).

Lemma nonzero_SCALE : SCALE t = scale.
Proof.
  unfold constructor; cbn [falsy SCALE].
  destruct (Z.eqb_spec scale 0); [contradiction | reflexivity].
Qed.

Lemma nonzero_ROW_MAP :
  ROW_MAP t =
  [("A", Some (Int (scale * 0))); ("B", Some (Int (scale * 1)));
   ("C", Some (Int (scale * 2))); ("D", Some (Int (scale * 3)));
   ("E", Some (Int (scale * 4))); ("F", Some (Int (scale * 5)))]%string.
Proof.
  unfold constructor; cbn [falsy ROW_MAP].
  destruct (Z.eqb_spec scale 0); [contradiction | reflexivity].
Qed.

Lemma nonzero_COL_MAP :
  COL_MAP t =
  [(1, Some (Int (scale * 0))); (2, Some (Int (scale * 0)));
   (3, Some (Int (scale * 1))); (4, Some (Int (scale * 1)));
   (5, Some (Int (scale * 2))); (6, Some (Int (scale * 2)));
   (7, Some (Int (scale * 3))); (8, Some (Int (scale * 3)));
   (9, Some (Int (scale * 4))); (10, Some (Int (scale * 4)));
   (11, Some (Int (scale * 5))); (12, Some (Int (scale * 5)))].
Proof.
  unfold constructor; cbn [falsy COL_MAP].
  destruct (Z.eqb_spec scale 0); [contradiction | ].
  change (range 2 (12 + 1)) with [2; 3; 4; 5; 6; 7; 8; 9; 10; 11; 12].
  cbn.
  repeat (f_equal; try lia).
Qed.

Lemma nonzero_keys :
  keys (ROW_MAP t) = row_symbols
  /\ keys (COL_MAP t) = [1; 2; 3; 4; 5; 6; 7; 8; 9; 10; 11; 12].
Proof. rewrite nonzero_ROW_MAP, nonzero_COL_MAP. split; reflexivity. Qed.

Lemma col_cases c :
  1 <= c <= 12 ->
  c = 1 \/ c = 2 \/ c = 3 \/ c = 4 \/ c = 5 \/ c = 6 \/
  c = 7 \/ c = 8 \/ c = 9 \/ c = 10 \/ c = 11 \/ c = 12.
Proof. lia. Qed.

Lemma nonzero_COL_MAP_get c :
  1 <= c <= 12 ->
  get Z.eqb (COL_MAP t) c = Some (Int (scale * ((c - 1) / 2))).
Proof.
  intros H. rewrite nonzero_COL_MAP.
  destruct (col_cases c H)
    as [-> | [-> | [-> | [-> | [-> | [-> | [-> | [-> | [-> | [-> | [-> | ->]]]]]]]]]]];
    reflexivity.
Qed.

Lemma nonzero_ROW_MAP_get i r :
  nth_error row_symbols i = Some r ->
  get String.eqb (ROW_MAP t) r = Some (Int (scale * Z.of_nat i)).
Proof.
  rewrite nonzero_ROW_MAP. unfold row_symbols.
  do 6 (destruct i as [ | i]; [intros [= <-]; reflexivity | ]).
  destruct i; discriminate.
Qed.

Lemma row_symbol_index r :
  In r row_symbols -> exists i, nth_error row_symbols i = Some r.
Proof. apply In_nth_error. Qed.

(** The forward map in closed form, for any non-zero scale. *)
Lemma nonzero_calculateCoordinates i r c :
  nth_error row_symbols i = Some r ->
  1 <= c <= 12 ->
  calculateCoordinates t (Some r) (Some (Int c)) =
  let x := scale * ((c - 1) / 2) in
  let y := scale * Z.of_nat i in
  if Z.even c
  then triangle (x + scale) y (x + scale) (y + scale) x y
  else triangle x (y + scale) x y (x + scale) (y + scale).
Proof.
  intros Hr Hc. unfold calculateCoordinates.
  rewrite isEvenColumn_even. cbn [COL_MAP_get ROW_MAP_get].
  rewrite (nonzero_COL_MAP_get c Hc), (nonzero_ROW_MAP_get i r Hr), nonzero_SCALE.
  destruct (Z.even c); reflexivity.
Qed.

(** Looking a pixel value up in the column map gives an odd column, the
    first of the two that share the value. *)
Lemma nonzero_COL_MAP_key x c :
  getMapKeyUsingValue Z.eqb (COL_MAP t) x = Some c ->
  Z.odd c = true /\ 1 <= c <= 11
  /\ x = Some (Int (scale * ((c - 1) / 2))).
Proof.
  rewrite nonzero_COL_MAP. unfold getMapKeyUsingValue.
  cbn [keys map fst find]. cbn [get Z.eqb Pos.eqb].
  destruct x as [[v | ] | ]; cbn [strict_eq number_strict_eq];
    try discriminate.
  repeat match goal with
         | |- context [Z.eqb ?a ?b] =>
             destruct (Z.eqb_spec a b) as [-> | ?]
         end;
    intros [= <-] || discriminate;
    (split; [reflexivity | split; [lia | reflexivity]]).
Qed.

Lemma nonzero_ROW_MAP_key y r :
  getMapKeyUsingValue String.eqb (ROW_MAP t) y = Some r ->
  In r row_symbols /\ get String.eqb (ROW_MAP t) r = y.
Proof.
  rewrite nonzero_ROW_MAP. unfold getMapKeyUsingValue.
  cbn [keys map fst find]. cbn [get String.eqb Ascii.eqb Bool.eqb].
  destruct y as [[v | ] | ]; cbn [strict_eq number_strict_eq];
    try discriminate.
  repeat match goal with
         | |- context [Z.eqb ?a ?b] =>
             destruct (Z.eqb_spec a b) as [-> | ?]
         end;
    intros [= <-] || discriminate;
    (split; [cbn; tauto | reflexivity]).
Qed.

End AnyScale.


(** X4.  In a constructed layout, the key found for a pixel value in the
    column map is always an odd column, the first of the pair of columns
    at that value ("the odd columns will always be returned from the map
    key lookup"), and the key found in the row map is one of the six
    symbols, the one at that value. *)
Theorem getMapKeyUsingValue_constructed :
  forall (arg : option number) (val : option number),
    let t := constructor arg in
    (forall col, getMapKeyUsingValue Z.eqb (COL_MAP t) val = Some col ->
       Z.odd col = true /\ 1 <= col <= 11
       /\ get Z.eqb (COL_MAP t) col = val
       /\ get Z.eqb (COL_MAP t) (col + 1) = val)
    /\ (forall row, getMapKeyUsingValue String.eqb (ROW_MAP t) val = Some row ->
          In row row_symbols /\ get String.eqb (ROW_MAP t) row = val).
Proof.
  intros arg val t.
  destruct (constructor_normal arg) as (scale & Hnz & Heq).
  subst t. rewrite Heq. split.
  - intros col H.
    destruct (nonzero_COL_MAP_key scale Hnz val col H) as (Hodd & Hc & ->).
    repeat apply conj; try assumption; try lia.
    + apply nonzero_COL_MAP_get; [exact Hnz | lia].
    + rewrite nonzero_COL_MAP_get by (exact Hnz || lia). do 3 f_equal.
      assert (col = 1 \/ col = 3 \/ col = 5 \/ col = 7 \/ col = 9 \/ col = 11)
        as [-> | [-> | [-> | [-> | [-> | ->]]]]]; [ | reflexivity ..].
      destruct (col_cases col ltac:(lia))
        as [-> | [-> | [-> | [-> | [-> | [-> | [-> | [-> | [-> | [-> | [-> | ->]]]]]]]]]]];
        try discriminate Hodd; try lia; tauto.
  - intros row H. exact (nonzero_ROW_MAP_key scale Hnz val row H).
Qed.

Lemma getMapKeyUsingValue_constructed_witness :
  Z.odd 7 = true /\ 1 <= 7 <= 11
  /\ get Z.eqb (COL_MAP (constructor None)) 7 = Some (Int 30)
  /\ get Z.eqb (COL_MAP (constructor None)) (7 + 1) = Some (Int 30).
Proof.
  apply (getMapKeyUsingValue_constructed None (Some (Int 30))).
  reflexivity.
Defined.

(** The forward map leaves no field undefined only on keys of both maps. *)
Lemma calculateCoordinates_defined t row col :
  all_defined (calculateCoordinates t row col) ->
  exists r c, row = Some r /\ col = Some (Int c)
              /\ In r (keys (ROW_MAP t)) /\ In c (keys (COL_MAP t)).
Proof.
  intros (H1x & H1y & H2x & H2y & H3x & H3y).
  assert (Hxy : COL_MAP_get t col <> undefined
                /\ ROW_MAP_get t row <> undefined).
  { unfold calculateCoordinates in *.
    destruct (number_strict_eq _ _); cbn [V1 V2 V3 X Y] in *; split;
      assumption. }
  destruct Hxy as [Hx Hy].
  destruct row as [r | ]; [ | now contradiction Hy].
  destruct col as [[c | ] | ]; try now contradiction Hx.
  exists r, c. cbn [COL_MAP_get ROW_MAP_get] in Hx, Hy.
  destruct (get String.eqb (ROW_MAP t) r) as [y | ] eqn:Ey;
    [ | now contradiction Hy].
  destruct (get Z.eqb (COL_MAP t) c) as [x | ] eqn:Ex;
    [ | now contradiction Hx].
  repeat split.
  - apply (get_In_keys String.eqb _ _ _ (fun a b => proj1 (String.eqb_eq a b)) Ey).
  - apply (get_In_keys Z.eqb _ _ _ (fun a b => proj1 (Z.eqb_eq a b)) Ex).
Qed.


(** ** The comparison of the two JSON texts is exact *)

Lemma json_number_append_inj n n' c c' r r' :
  is_decimal_char c = false -> is_decimal_char c' = false ->
  (json_number n ++ String c r)%string = (json_number n' ++ String c' r')%string ->
  n = n' /\ c = c' /\ r = r'.
Proof.
  intros Hc Hc' H. destruct n as [a | ].
  - change (json_number (Int a)) with (decimal a) in H.
    destruct (decimal_append_inj a n' c c' r r' Hc Hc' H) as (-> & -> & ->).
    auto.
  - destruct n' as [b | ].
    + symmetry in H. change (json_number (Int b)) with (decimal b) in H.
      destruct (decimal_append_inj b NaN c' c r' r Hc' Hc H) as (Habs & _).
      discriminate Habs.
    + cbn in H. injection H as -> ->. auto.
Qed.

(** The text of a vertex determines the vertex, also when more text
    follows, whatever its fields are. *)
Lemma stringify_Coordinate_append_inj_any c1 c2 r r' :
  (stringify_Coordinate c1 ++ r)%string = (stringify_Coordinate c2 ++ r')%string ->
  c1 = c2 /\ r = r'.
Proof.
  intros H.
  destruct c1 as [[n1 | ] [m1 | ]]; destruct c2 as [[n2 | ] [m2 | ]];
    json_normalize H; try discriminate H; injection H as H;
    repeat match goal with
           | H : (json_number _ ++ String _ _)%string
                 = (json_number _ ++ String _ _)%string |- _ =>
               apply json_number_append_inj in H as (-> & Hsep & H);
               [ | reflexivity ..]; try discriminate Hsep; clear Hsep;
               try injection H as H
           end;
    subst; split; reflexivity.
Qed.

Lemma JSON_stringify_inj_any c1 c2 :
  JSON_stringify c1 = JSON_stringify c2 -> c1 = c2.
Proof.
  intros H. destruct c1 as [p1 p2 p3], c2 as [q1 q2 q3].
  unfold JSON_stringify, json_object in H. cbn [V1 V2 V3] in H.
  remember (stringify_Coordinate p1) as sp1 eqn:E1.
  remember (stringify_Coordinate p2) as sp2 eqn:E2.
  remember (stringify_Coordinate p3) as sp3 eqn:E3.
  remember (stringify_Coordinate q1) as sq1 eqn:F1.
  remember (stringify_Coordinate q2) as sq2 eqn:F2.
  remember (stringify_Coordinate q3) as sq3 eqn:F3.
  cbn [json_members String.concat] in H.
  rewrite ?append_assoc in H. cbn [append dquote] in H.
  injection H as H. rewrite E1, F1 in H.
  apply stringify_Coordinate_append_inj_any in H as (-> & H).
  injection H as H. rewrite E2, F2 in H.
  apply stringify_Coordinate_append_inj_any in H as (-> & H).
  injection H as H. rewrite E3, F3 in H.
  apply stringify_Coordinate_append_inj_any in H as (-> & _).
  reflexivity.
Qed.

Lemma calculateRowAndColumn_sound_any t coords :
  calculateRowAndColumn t coords = sentinel
  \/ exists row col,
       calculateRowAndColumn t coords = (of_string row, of_number col)
       /\ calculateCoordinates t row col = coords.
Proof.
  unfold calculateRowAndColumn.
  destruct (gt (Y (V1 coords)) (Y (V2 coords)));
    match goal with
    | |- context [calculateCoordinates t ?row ?col] =>
        destruct (String.eqb_spec (JSON_stringify coords)
                    (JSON_stringify (calculateCoordinates t row col)))
          as [E | _]; [right | left; reflexivity];
        apply JSON_stringify_inj_any in E; exists row, col;
        split; [reflexivity | now symmetry]
    end.
Qed.


(** On a constructed layout, a triple without [undefined] fields is
    rejected or is the triple of a valid cell. *)
Lemma calculateRowAndColumn_defined arg coords :
  all_defined coords ->
  calculateRowAndColumn (constructor arg) coords = sentinel
  \/ exists r c,
       In r row_symbols /\ 1 <= c <= 12
       /\ calculateRowAndColumn (constructor arg) coords
          = (VString r, VNumber (Int c))
       /\ calculateCoordinates (constructor arg) (Some r) (Some (Int c))
          = coords.
Proof.
  intros Hdef.
  destruct (calculateRowAndColumn_sound_any (constructor arg) coords)
    as [Hs | (row & col & Hres & Hfwd)]; [now left | right].
  rewrite <- Hfwd in Hdef.
  destruct (calculateCoordinates_defined _ row col Hdef)
    as (r & c & -> & -> & Inr & Inc).
  destruct (constructor_normal arg) as (scale & Hnz & Heq).
  rewrite Heq in *.
  destruct (nonzero_keys scale Hnz) as [Kr Kc].
  rewrite Kr in Inr. rewrite Kc in Inc.
  exists r, c. repeat split; try assumption; cbn [In] in Inc; lia.
Qed.



(** The hypothesis of X7 is needed: with [undefined] fields, a triple can
    be accepted with an [undefined] row. *)
Example calculateRowAndColumn_undefined_row :
  calculateRowAndColumn (constructor None)
    (new_TriangleCoordinates
       (new_Coordinate (Some (Int 10)) undefined)
       (new_Coordinate (Some (Int 10)) (Some NaN))
       (new_Coordinate (Some (Int 0)) undefined))
  = (VUndefined, VNumber (Int 2)).
Proof. reflexivity. Qed.

(** ** The scale has to be positive *)

Lemma col_half c :
  1 <= c <= 12 ->
  0 <= (c - 1) / 2 <= 5
  /\ c = 2 * ((c - 1) / 2) + (if Z.even c then 2 else 1).
Proof.
  intros H.
  destruct (col_cases c H)
    as [-> | [-> | [-> | [-> | [-> | [-> | [-> | [-> | [-> | [-> | [-> | ->]]]]]]]]]]];
    cbn; lia.
Qed.

(** For any non-zero scale the forward map is one-to-one on valid cells. *)
Lemma nonzero_calculateCoordinates_inj scale r c r' c' :
  scale <> 0 ->
  In r row_symbols -> 1 <= c <= 12 -> In r' row_symbols -> 1 <= c' <= 12 ->
  calculateCoordinates (constructor (Some (Int scale))) (Some r) (Some (Int c))
  = calculateCoordinates (constructor (Some (Int scale))) (Some r') (Some (Int c')) ->
  r = r' /\ c = c'.
Proof.
  intros Hnz Hr Hc Hr' Hc'.
  destruct (row_symbol_index r Hr) as [i Hi].
  destruct (row_symbol_index r' Hr') as [i' Hi'].
  rewrite (nonzero_calculateCoordinates scale Hnz i r c Hi Hc).
  rewrite (nonzero_calculateCoordinates scale Hnz i' r' c' Hi' Hc').
  cbv zeta. unfold triangle, pixel.
  destruct (col_half c Hc) as [_ Hpar]. destruct (col_half c' Hc') as [_ Hpar'].
  destruct (Z.even c), (Z.even c'); intros H; injection H; intros;
    try (exfalso; lia).
  all: assert (Hk : (c - 1) / 2 = (c' - 1) / 2)
         by (apply (Z.mul_reg_l _ _ scale Hnz); lia).
  all: assert (Hrow : Z.of_nat i = Z.of_nat i')
         by (apply (Z.mul_reg_l _ _ scale Hnz); lia).
  all: apply Nat2Z.inj in Hrow; subst i'; split; [congruence | lia].
Qed.

(** With a negative scale the inverse map takes the triple of an odd
    column for one of an even column and conversely, and so rejects it. *)
Lemma negative_calculateRowAndColumn scale r c :
  scale < 0 -> In r row_symbols -> 1 <= c <= 12 ->
  calculateRowAndColumn (constructor (Some (Int scale)))
    (calculateCoordinates (constructor (Some (Int scale))) (Some r) (Some (Int c)))
  = sentinel.
Proof.
  intros Hneg Hr Hc. assert (Hnz : scale <> 0) by lia.
  destruct (row_symbol_index r Hr) as [i Hi].
  pose proof (nonzero_calculateCoordinates scale Hnz i r c Hi Hc) as Hfwd.
  cbv zeta in Hfwd.
  destruct (calculateRowAndColumn_defined (Some (Int scale))
              (calculateCoordinates (constructor (Some (Int scale)))
                 (Some r) (Some (Int c))))
    as [Hs | (r' & c' & Hr' & Hc' & Hres & Hback)].
  { rewrite Hfwd. unfold all_defined, triangle, pixel.
    destruct (Z.even c); cbn; repeat split; discriminate. }
  { exact Hs. }
  exfalso.
  destruct (nonzero_calculateCoordinates_inj scale r' c' r c Hnz Hr' Hc' Hr Hc Hback)
    as [-> ->].
  clear Hback. rewrite Hfwd in Hres. unfold calculateRowAndColumn in Hres.
  unfold triangle, pixel in Hres.
  destruct (Z.even c) eqn:Heven; cbn [V1 V2 V3 X Y gt ToNumber] in Hres;
    rewrite Z.gtb_ltb in Hres.
  - destruct (Z.ltb_spec (scale * Z.of_nat i + scale) (scale * Z.of_nat i));
      [ | lia].
    destruct (getMapKeyUsingValue Z.eqb _ _) as [k | ] eqn:Ek;
      cbn [option_map of_number] in Hres;
      destruct (negb _); try discriminate Hres.
    injection Hres as _ Hk. subst k.
    destruct (nonzero_COL_MAP_key scale Hnz _ _ Ek) as (Hodd & _).
    rewrite <- Z.negb_even, Heven in Hodd. discriminate Hodd.
  - destruct (Z.ltb_spec (scale * Z.of_nat i) (scale * Z.of_nat i + scale));
      [lia | ].
    destruct (getMapKeyUsingValue Z.eqb _ _) as [k | ] eqn:Ek;
      cbn [option_map of_number parseInt plus ToNumber] in Hres;
      destruct (negb _); try discriminate Hres.
    injection Hres as _ Hk.
    destruct (nonzero_COL_MAP_key scale Hnz _ _ Ek) as (Hodd & _).
    assert (Hc1 : Z.even (k + 1) = false) by (rewrite Hk; exact Heven).
    rewrite Z.even_add, <- Z.negb_odd, Hodd in Hc1. discriminate Hc1.
Qed.



(** ** The guard before the forward map *)




(** ** What the self-test detects *)

Lemma append_nonempty a c b :
  match (a ++ String c b)%string with EmptyString => true | String _ _ => false end
  = false.
Proof. destruct a; reflexivity. Qed.

Lemma testLayout_cell_errors t r acc c :
  no_errors (testLayout_cell t r acc c)
  = no_errors acc && cell_passes t (r, c).
Proof.
  destruct acc as [out err]. unfold testLayout_cell, cell_passes, no_errors.
  destruct (calculateRowAndColumn t _) as [row col].
  cbn [parseInt].
  destruct (strict_eq_string row r);
    destruct (number_strict_eq (parseInt col) (Int c)); cbn [snd andb];
    rewrite ?andb_true_r, ?andb_false_r; try reflexivity;
    rewrite ?append_assoc; cbn [append];
    rewrite ?append_nonempty; reflexivity.
Qed.

Lemma testLayout_row_errors t r cols acc :
  no_errors (fold_left (testLayout_cell t r) cols acc)
  = no_errors acc && forallb (cell_passes t) (map (pair r) cols).
Proof.
  revert acc. induction cols as [ | c cols IH]; intros acc;
    cbn [fold_left map forallb].
  - now rewrite andb_true_r.
  - now rewrite IH, testLayout_cell_errors, andb_assoc.
Qed.

Lemma testLayout_rows_errors t rows cols acc :
  no_errors
    (fold_left (fun acc rowKey => fold_left (testLayout_cell t rowKey) cols acc)
       rows acc)
  = no_errors acc && forallb (cell_passes t) (list_prod rows cols).
Proof.
  revert acc. induction rows as [ | r rows IH]; intros acc;
    cbn [fold_left list_prod forallb].
  - now rewrite andb_true_r.
  - now rewrite IH, testLayout_row_errors, forallb_app, andb_assoc.
Qed.

Lemma prefix_append a b : prefix a (a ++ b) = true.
Proof.
  induction a as [ | x a IH]; cbn [append prefix]; [now destruct b | ].
  destruct (ascii_dec x x) as [_ | Hne]; [exact IH | now contradiction Hne].
Qed.

Lemma prefix_head_differs x a y b :
  x <> y -> prefix (String x a) (String y b) = false.
Proof.
  intros Hne. cbn [prefix].
  destruct (ascii_dec x y) as [Heq | _]; [now contradiction Hne | reflexivity].
Qed.

(** The summary line of the report, by whether every cell passes. *)
Lemma testLayout_summary t :
  let cells := list_prod (keys (ROW_MAP t)) (keys (COL_MAP t)) in
  prefix ("No errors found!" ++ nl) (testLayout t)
  = forallb (cell_passes t) cells
  /\ prefix ("Found errors:" ++ nl) (testLayout t)
     = negb (forallb (cell_passes t) cells).
Proof.
  intros cells. unfold testLayout.
  pose proof (testLayout_rows_errors t (keys (ROW_MAP t)) (keys (COL_MAP t))
                (EmptyString, EmptyString)) as H.
  fold cells in H. cbn [no_errors snd andb] in H.
  destruct (fold_left _ _ _) as [out err]. cbn [no_errors snd] in H.
  rewrite <- H. destruct err as [ | c err].
  - split; [apply prefix_append | ].
    apply prefix_head_differs. discriminate.
  - split; [apply prefix_head_differs; discriminate | ].
    change (prefix ("Found errors:" ++ nl)
              (("Found errors:" ++ nl) ++ (String c err ++ out)) = true).
    apply prefix_append.
Qed.

(** X10.  The self-test is a faithful detector on any layout: its report
    starts with the no-errors line exactly when, on every pair of a key of
    the row map and a key of the column map, the inverse of the vertices
    gives back that row and that column; otherwise it starts with the
    found-errors line. *)
Theorem testLayout_detects :
  forall (t : TriangleLayout),
    let cells := list_prod (keys (ROW_MAP t)) (keys (COL_MAP t)) in
    (prefix ("No errors found!" ++ nl) (testLayout t) = true
     <-> forall rowKey colKey, In (rowKey, colKey) cells ->
           exists col,
             calculateRowAndColumn t
               (calculateCoordinates t (Some rowKey) (Some (Int colKey)))
             = (VString rowKey, col)
             /\ parseInt col = Int colKey)
    /\ (prefix ("Found errors:" ++ nl) (testLayout t)
        = negb (prefix ("No errors found!" ++ nl) (testLayout t))).
Proof.
  intros t cells. destruct (testLayout_summary t) as [Hok Hbad].
  fold cells in Hok, Hbad. rewrite Hok, Hbad. split; [ | reflexivity].
  rewrite forallb_forall. split.
  - intros H rowKey colKey Hin. specialize (H _ Hin).
    unfold cell_passes in H.
    destruct (calculateRowAndColumn t _) as [row col].
    apply andb_prop in H as [Hrow Hcol].
    destruct row as [ | | s]; try discriminate Hrow.
    cbn in Hrow. apply String.eqb_eq in Hrow. subst s.
    exists col. split; [reflexivity | ].
    unfold number_strict_eq in Hcol.
    destruct (parseInt col) as [z | ]; [ | discriminate Hcol].
    apply Z.eqb_eq in Hcol. now subst z.
  - intros H [rowKey colKey] Hin. destruct (H rowKey colKey Hin) as (col & Hres & Hcol).
    unfold cell_passes. rewrite Hres, Hcol. cbn.
    now rewrite String.eqb_refl, Z.eqb_refl.
Qed.

Lemma testLayout_detects_witness :
  prefix ("No errors found!" ++ nl) (testLayout (constructor None)) = true.
Proof.
  apply (testLayout_detects (constructor None)).
  intros rowKey colKey Hin. apply in_prod_iff in Hin. destruct Hin as [Hr Hc].
  exists (VNumber (Int colKey)). split; [ | reflexivity].
  apply (calculateRowAndColumn_calculateCoordinates 10 eq_refl rowKey colKey).
  - exact Hr.
  - change (In colKey [1; 2; 3; 4; 5; 6; 7; 8; 9; 10; 11; 12]) in Hc.
    cbn [In] in Hc. unfold valid_col.
    change (MAX_COLS (constructor (Some (Int 10)))) with 12. lia.
Defined.

(** X11.  With a negative scale the self-test reports errors. *)
Theorem testLayout_negative_scale :
  forall (scale : Z),
    scale < 0 ->
    prefix ("Found errors:" ++ nl) (testLayout (constructor (Some (Int scale))))
    = true.
Proof.
  intros scale Hneg. assert (Hnz : scale <> 0) by lia.
  destruct (testLayout_summary (constructor (Some (Int scale)))) as [_ ->].
  destruct (nonzero_keys scale Hnz) as [-> ->].
  change (list_prod row_symbols [1; 2; 3; 4; 5; 6; 7; 8; 9; 10; 11; 12])
    with (("A"%string, 1) :: tl grid).
  cbn [forallb]. unfold cell_passes at 1.
  rewrite (negative_calculateRowAndColumn scale "A" 1 Hneg);
    [reflexivity | cbn; tauto | lia].
Qed.

Lemma testLayout_negative_scale_witness :
  prefix ("Found errors:" ++ nl) (testLayout (constructor (Some (Int (-1)))))
  = true.
Proof. apply (testLayout_negative_scale (-1)). reflexivity. Defined.

(** ** Printed integers are read back by [parseInt] *)

Lemma all_digits_uint d : all_digits (NilEmpty.string_of_uint d) = true.
Proof. induction d; cbn [NilEmpty.string_of_uint all_digits]; auto. Qed.

Ltac digit_cases c H :=
  destruct c as [[] [] [] [] [] [] [] []]; try discriminate H.

(** On a text of digits, [parseInt] skips nothing, finds no sign and no
    hexadecimal prefix. *)
Lemma parseInt_string_digits s :
  all_digits s = true ->
  parseInt_string s
  = match leading_digits 10 s None with Some n => Int n | None => NaN end.
Proof.
  destruct s as [ | c s]; [reflexivity | ].
  cbn [all_digits]. intros H. apply andb_prop in H as [Hc Hs].
  digit_cases c Hc; try reflexivity.
  destruct s as [ | c' s]; [reflexivity | ].
  cbn [all_digits] in Hs. apply andb_prop in Hs as [Hc' _].
  digit_cases c' Hc'; reflexivity.
Qed.

Lemma parseInt_string_minus_digits s :
  all_digits s = true ->
  parseInt_string (String "-" s)
  = match leading_digits 10 s None with Some n => Int (- n) | None => NaN end.
Proof.
  destruct s as [ | c s]; [reflexivity | ].
  cbn [all_digits]. intros H. apply andb_prop in H as [Hc Hs].
  digit_cases c Hc; try reflexivity.
  destruct s as [ | c' s]; [reflexivity | ].
  cbn [all_digits] in Hs. apply andb_prop in Hs as [Hc' _].
  digit_cases c' Hc'; reflexivity.
Qed.

Lemma leading_digits_acc d a :
  leading_digits 10 (NilEmpty.string_of_uint d) (Some (Z.pos a))
  = Some (Z.pos (Pos.of_uint_acc d a)).
Proof.
  revert a. induction d; intros a;
    cbn [NilEmpty.string_of_uint leading_digits Pos.of_uint_acc];
    [reflexivity | ..];
    match goal with
    | |- context [digit_value 10 ?c] =>
        let v := eval vm_compute in (digit_value 10 c) in
        change (digit_value 10 c) with v
    end;
    cbv iota beta; rewrite <- IHd; do 2 f_equal; lia.
Qed.

Lemma leading_digits_uint d :
  d <> Decimal.Nil ->
  leading_digits 10 (NilEmpty.string_of_uint d) None
  = Some (Z.of_N (Pos.of_uint d)).
Proof.
  intros Hd.
  assert (H0 : forall d', leading_digits 10 (NilEmpty.string_of_uint d') (Some 0)
                          = Some (Z.of_N (Pos.of_uint d'))).
  { induction d'; cbn [NilEmpty.string_of_uint leading_digits Pos.of_uint];
      [reflexivity | ..];
      match goal with
      | |- context [digit_value 10 ?c] =>
          let v := eval vm_compute in (digit_value 10 c) in
          change (digit_value 10 c) with v
      end;
      cbv iota beta; cbn [Z.mul Z.add]; [exact IHd' | ..];
      rewrite leading_digits_acc; reflexivity. }
  rewrite <- H0. destruct d; [now contradiction Hd | ..]; reflexivity.
Qed.

(** [parseInt] reads the decimal text of an integer back. *)
Lemma parseInt_string_decimal z : parseInt_string (decimal z) = Int z.
Proof.
  unfold decimal. destruct z as [ | p | p]; [reflexivity | | ];
    cbn [Z.to_int NilZero.string_of_int];
    pose proof (DecimalPos.Unsigned.to_uint_nonnil p) as Hnil;
    pose proof (DecimalPos.Unsigned.of_to p) as Hof;
    destruct (Pos.to_uint p) as [ | | | | | | | | | | ] eqn:E;
    try now contradiction Hnil.
  all: cbn [NilZero.string_of_uint].
  all: rewrite ?parseInt_string_digits, ?parseInt_string_minus_digits
         by apply all_digits_uint.
  all: rewrite leading_digits_uint by discriminate.
  all: rewrite Hof; reflexivity.
Qed.

(** ** The click handlers *)

Lemma triangleLayout_default : triangleLayout = constructor (Some (Int 10)).
Proof. reflexivity. Qed.

Lemma column_check_valid c :
  1 <= c <= 12 ->
  (isNaN (Some (Int c)) || lt (Some (Int c)) (Some (Int 1))
   || gt (Some (Int c)) (Some (Int 12)))%bool = false.
Proof.
  intros Hc. cbn. rewrite Z.gtb_ltb. apply orb_false_intro; apply Z.ltb_ge; lia.
Qed.

Lemma includes_row_symbols_false row :
  ~ In row row_symbols -> includes row_symbols (Some row) = false.
Proof.
  intros Hrow. destruct (includes row_symbols (Some row)) eqn:E; [ | reflexivity].
  apply includes_row_symbols in E. destruct E as (s & [= <-] & Hin).
  contradiction.
Qed.

Lemma includes_row_symbols_true row :
  In row row_symbols -> includes row_symbols (Some row) = true.
Proof. intros Hrow. apply includes_row_symbols. exists row. auto. Qed.

(** X12.  The handler of the coordinate button shows one of three texts:
    the row error, with the first character of the input, when that
    character is not one of the six symbols (so on an empty input); the
    column error when [parseInt] of the rest is NaN or outside 1..12;
    otherwise the indented JSON of three vertices at integer pixels.  It
    never shows a triple with a null or missing coordinate. *)
Theorem coord_calc_btn_click_cases :
  forall (rowColInput : string),
    let row := charAt_0 rowColInput in
    let col := parseInt_string (slice_1 rowColInput) in
    (~ In row row_symbols ->
     coord_calc_btn_click rowColInput
     = ("Row [" ++ row ++ "] is not a valid row character")%string)
    /\ (In row row_symbols -> column_invalid (Some col) ->
        coord_calc_btn_click rowColInput = "Invalid column number"%string)
    /\ (In row row_symbols -> ~ column_invalid (Some col) ->
        exists c x1 y1 x2 y2 x3 y3,
          col = Int c /\ 1 <= c <= 12
          /\ calculateCoordinates triangleLayout (Some row) (Some (Int c))
             = triangle x1 y1 x2 y2 x3 y3
          /\ coord_calc_btn_click rowColInput
             = JSON_stringify_2 (triangle x1 y1 x2 y2 x3 y3)).
Proof.
  intros rowColInput row col.
  unfold coord_calc_btn_click. cbn [parseInt]. fold row col.
  unfold triangleLayout. rewrite isValidRowAndCol_cases.
  repeat apply conj.
  - intros Hrow. now rewrite (includes_row_symbols_false row Hrow).
  - intros Hrow Hcol. rewrite (includes_row_symbols_true row Hrow).
    apply column_check in Hcol. now rewrite Hcol.
  - intros Hrow Hcol. rewrite (includes_row_symbols_true row Hrow).
    destruct col as [c | ] eqn:Ecol; [ | now contradiction Hcol].
    assert (Hc : 1 <= c <= 12) by (cbn in Hcol; lia).
    rewrite (column_check_valid c Hc).
    destruct (row_symbol_index row Hrow) as [i Hi].
    pose proof (nonzero_calculateCoordinates 10 ltac:(discriminate) i row c Hi Hc)
      as Hfwd.
    cbv zeta in Hfwd. change (constructor None) with (constructor (Some (Int 10))).
    exists c. rewrite Hfwd.
    destruct (Z.even c); do 6 eexists;
      (split; [reflexivity | split; [exact Hc | split; reflexivity]]).
Qed.

Lemma coord_calc_btn_click_cases_witness :
  coord_calc_btn_click "A" = "Invalid column number"%string
  /\ coord_calc_btn_click "7" = "Row [7] is not a valid row character"%string.
Proof.
  split.
  - apply (coord_calc_btn_click_cases "A").
    + cbn. tauto.
    + exact I.
  - apply (coord_calc_btn_click_cases "7").
    cbn. intros H.
    repeat (destruct H as [H | H]; [discriminate H | ]). exact H.
Defined.

Lemma coord_calc_btn_click_of_label row col :
  In row row_symbols -> 1 <= col <= 12 ->
  coord_calc_btn_click (row ++ decimal col)
  = JSON_stringify_2
      (calculateCoordinates triangleLayout (Some row) (Some (Int col))).
Proof.
  intros Hrow Hcol. unfold coord_calc_btn_click.
  assert (Hparts : charAt_0 (row ++ decimal col) = row
                   /\ slice_1 (row ++ decimal col) = decimal col).
  { unfold row_symbols in Hrow. cbn [In] in Hrow.
    destruct Hrow as [<- | [<- | [<- | [<- | [<- | [<- | []]]]]]];
      split; reflexivity. }
  destruct Hparts as [-> ->]. cbn [parseInt].
  rewrite parseInt_string_decimal.
  unfold triangleLayout. rewrite isValidRowAndCol_cases.
  now rewrite (includes_row_symbols_true row Hrow), (column_check_valid col Hcol).
Qed.

(** X13.  Typing the label of a valid cell, the row symbol followed by the
    column in decimal, shows the indented JSON of the vertices of that
    cell. *)
Theorem coord_calc_btn_click_label :
  forall (row : string) (col : Z),
    In row row_symbols -> 1 <= col <= 12 ->
    coord_calc_btn_click (row ++ decimal col)
    = JSON_stringify_2
        (calculateCoordinates triangleLayout (Some row) (Some (Int col))).
Proof. exact coord_calc_btn_click_of_label. Qed.

Lemma coord_calc_btn_click_label_witness :
  coord_calc_btn_click "D11"
  = JSON_stringify_2
      (calculateCoordinates triangleLayout (Some "D"%string) (Some (Int 11))).
Proof.
  apply (coord_calc_btn_click_label "D" 11).
  - cbn. tauto.
  - lia.
Defined.

Lemma parse_vertex_defined input :
  X (parse_vertex input) <> undefined /\ Y (parse_vertex input) <> undefined.
Proof. split; discriminate. Qed.

Lemma row_symbol_truthy r : In r row_symbols -> truthy (VString r) = true.
Proof.
  unfold row_symbols. cbn [In].
  intros [<- | [<- | [<- | [<- | [<- | [<- | []]]]]]]; reflexivity.
Qed.

(** What the handler shows for a valid cell returned by the inverse map. *)
Lemma label_of_cell r c :
  In r row_symbols -> 1 <= c <= 12 ->
  (if truthy (VString r) && truthy (VNumber (Int c))
   then ToString (value_plus (VString r) (VNumber (Int c)))
   else "Incorrect coordinates given"%string)
  = (r ++ decimal c)%string.
Proof.
  intros Hr Hc. rewrite (row_symbol_truthy r Hr). cbn [truthy andb].
  destruct (Z.eqb_spec c 0); [lia | reflexivity].
Qed.

(** X14.  Whatever is typed into the three vertex fields, the handler of
    the row-and-column button shows either the text
    "Incorrect coordinates given" or the label of a valid cell whose
    vertices are exactly the three vertices read from the fields; it shows
    the first as soon as one of the six numbers is missing or unreadable. *)
Theorem row_col_calc_btn_click_cases :
  forall (v1 v2 v3 : string),
    let coords :=
      new_TriangleCoordinates (parse_vertex v1) (parse_vertex v2)
        (parse_vertex v3) in
    (row_col_calc_btn_click v1 v2 v3 = "Incorrect coordinates given"%string
     \/ exists row col,
          In row row_symbols /\ 1 <= col <= 12
          /\ calculateCoordinates triangleLayout (Some row) (Some (Int col))
             = coords
          /\ row_col_calc_btn_click v1 v2 v3 = (row ++ decimal col)%string)
    /\ (some_NaN coords ->
        row_col_calc_btn_click v1 v2 v3 = "Incorrect coordinates given"%string).
Proof.
  intros v1 v2 v3 coords.
  assert (Hdef : all_defined coords).
  { unfold all_defined, coords. cbn [V1 V2 V3].
    repeat split; apply parse_vertex_defined. }
  assert (Hcases :
            row_col_calc_btn_click v1 v2 v3 = "Incorrect coordinates given"%string
            \/ exists row col,
                 In row row_symbols /\ 1 <= col <= 12
                 /\ calculateCoordinates triangleLayout (Some row) (Some (Int col))
                    = coords
                 /\ row_col_calc_btn_click v1 v2 v3 = (row ++ decimal col)%string).
  { unfold row_col_calc_btn_click. fold coords. unfold triangleLayout.
    destruct (calculateRowAndColumn_defined None coords Hdef)
      as [-> | (r & c & Hr & Hc & -> & Hfwd)].
    - left. reflexivity.
    - right. exists r, c. repeat split; try assumption; try apply Hc.
      apply (label_of_cell r c Hr Hc). }
  split; [exact Hcases | ].
  intros HNaN. destruct Hcases as [H | (r & c & Hr & Hc & Hfwd & _)]; [exact H | ].
  exfalso. unfold triangleLayout in Hfwd.
  change (constructor None) with (constructor (Some (Int 10))) in Hfwd.
  destruct (row_symbol_index r Hr) as [i Hi].
  rewrite (nonzero_calculateCoordinates 10 ltac:(discriminate) i r c Hi Hc) in Hfwd.
  cbv zeta in Hfwd. rewrite <- Hfwd in HNaN. unfold some_NaN in HNaN.
  destruct (Z.even c); cbn in HNaN; intuition discriminate.
Qed.

Lemma row_col_calc_btn_click_cases_witness :
  row_col_calc_btn_click "0,10" "0" "10,10"
  = "Incorrect coordinates given"%string.
Proof.
  apply (row_col_calc_btn_click_cases "0,10" "0" "10,10").
  unfold some_NaN. cbn. tauto.
Defined.

Lemma decimal_char_not_comma c :
  is_decimal_char c = true -> Ascii.eqb c "," = false.
Proof.
  intros H. destruct (Ascii.eqb_spec c ","); [subst; discriminate H | reflexivity].
Qed.

Lemma string_split_decimal s :
  all_decimal s = true -> string_split "," s = [s].
Proof.
  induction s as [ | c s IH]; [reflexivity | ].
  cbn [all_decimal string_split]. intros H. apply andb_prop in H as [Hc Hs].
  now rewrite (decimal_char_not_comma c Hc), (IH Hs).
Qed.

Lemma string_split_decimal_comma s rest :
  all_decimal s = true ->
  string_split "," (s ++ String "," rest) = s :: string_split "," rest.
Proof.
  induction s as [ | c s IH]; [reflexivity | ].
  cbn [all_decimal string_split append]. intros H.
  apply andb_prop in H as [Hc Hs].
  now rewrite (decimal_char_not_comma c Hc), (IH Hs).
Qed.

Lemma parse_vertex_text x y : parse_vertex (vertex_text x y) = pixel x y.
Proof.
  unfold parse_vertex, vertex_text. cbn [append].
  rewrite (string_split_decimal_comma _ _ (all_decimal_decimal x)).
  rewrite (string_split_decimal _ (all_decimal_decimal y)).
  cbn [nth_error of_string parseInt].
  now rewrite !parseInt_string_decimal.
Qed.

(** X15.  On three vertices typed as integers [x,y], the handler of the
    row-and-column button shows the label of the cell that has these
    vertices when there is one, and "Incorrect coordinates given" when
    there is none. *)
Theorem row_col_calc_btn_click_integers :
  forall (x1 y1 x2 y2 x3 y3 : Z),
    let shown :=
      row_col_calc_btn_click (vertex_text x1 y1) (vertex_text x2 y2)
        (vertex_text x3 y3) in
    (forall row col,
        In row row_symbols -> 1 <= col <= 12 ->
        calculateCoordinates triangleLayout (Some row) (Some (Int col))
        = triangle x1 y1 x2 y2 x3 y3 ->
        shown = (row ++ decimal col)%string)
    /\ ((forall row col,
            In row row_symbols -> 1 <= col <= 12 ->
            calculateCoordinates triangleLayout (Some row) (Some (Int col))
            <> triangle x1 y1 x2 y2 x3 y3) ->
        shown = "Incorrect coordinates given"%string).
Proof.
  intros x1 y1 x2 y2 x3 y3 shown. subst shown.
  unfold row_col_calc_btn_click. rewrite !parse_vertex_text.
  fold (triangle x1 y1 x2 y2 x3 y3). unfold triangleLayout.
  change (constructor None) with (constructor (Some (Int 10))).
  split.
  - intros r c Hr Hc Hfwd. rewrite <- Hfwd.
    rewrite (calculateRowAndColumn_calculateCoordinates 10 eq_refl r c Hr Hc).
    apply (label_of_cell r c Hr Hc).
  - intros Hnone.
    destruct (calculateRowAndColumn_sound 10 eq_refl x1 y1 x2 y2 x3 y3)
      as [Hs | (r & c & Hr & Hc & _ & Hfwd)].
    + unfold triangle. rewrite Hs. reflexivity.
    + exfalso. exact (Hnone r c Hr Hc Hfwd).
Qed.

Lemma row_col_calc_btn_click_integers_witness :
  row_col_calc_btn_click (vertex_text 0 10) (vertex_text 0 0)
    (vertex_text 10 10)
  = "A1"%string.
Proof.
  pose proof (row_col_calc_btn_click_integers 0 10 0 0 10 10) as H.
  cbv zeta in H. apply (proj1 H "A"%string 1).
  - cbn. tauto.
  - lia.
  - reflexivity.
Defined.

(** The indented JSON text tells integer triples apart. *)
Lemma JSON_stringify_2_inj x1 y1 x2 y2 x3 y3 a1 b1 a2 b2 a3 b3 :
  JSON_stringify_2 (triangle x1 y1 x2 y2 x3 y3)
  = JSON_stringify_2 (triangle a1 b1 a2 b2 a3 b3) ->
  triangle x1 y1 x2 y2 x3 y3 = triangle a1 b1 a2 b2 a3 b3.
Proof.
  intros H.
  unfold JSON_stringify_2, stringify_Coordinate_gap, json_object_gap,
    triangle, pixel in H.
  cbn [V1 V2 V3 X Y option_map json_members_gap String.concat json_number] in H.
  rewrite ?append_assoc in H. cbn [append dquote nl] in H.
  injection H as H.
  apply (decimal_append_inj x1 (Int a1)) in H as (E1 & _ & H); [ | reflexivity ..].
  injection H as H.
  apply (decimal_append_inj y1 (Int b1)) in H as (E2 & _ & H); [ | reflexivity ..].
  injection H as H.
  apply (decimal_append_inj x2 (Int a2)) in H as (E3 & _ & H); [ | reflexivity ..].
  injection H as H.
  apply (decimal_append_inj y2 (Int b2)) in H as (E4 & _ & H); [ | reflexivity ..].
  injection H as H.
  apply (decimal_append_inj x3 (Int a3)) in H as (E5 & _ & H); [ | reflexivity ..].
  injection H as H.
  apply (decimal_append_inj y3 (Int b3)) in H as (E6 & _ & _); [ | reflexivity ..].
  congruence.
Qed.

(** X16.  The two handlers undo each other: when the coordinate button
    shows three integer vertices for the label of a valid cell, these
    numbers, typed into the three vertex fields, make the row-and-column
    button show that label. *)
Theorem click_handlers_roundtrip :
  forall (row : string) (col : Z) (x1 y1 x2 y2 x3 y3 : Z),
    In row row_symbols -> 1 <= col <= 12 ->
    coord_calc_btn_click (row ++ decimal col)
    = JSON_stringify_2 (triangle x1 y1 x2 y2 x3 y3) ->
    row_col_calc_btn_click (vertex_text x1 y1) (vertex_text x2 y2)
      (vertex_text x3 y3)
    = (row ++ decimal col)%string.
Proof.
  intros row col x1 y1 x2 y2 x3 y3 Hr Hc Hshown.
  pose proof (coord_calc_btn_click_of_label row col Hr Hc) as Hlabel.
  rewrite Hlabel in Hshown. clear Hlabel.
  assert (Hfwd : calculateCoordinates triangleLayout (Some row) (Some (Int col))
                 = triangle x1 y1 x2 y2 x3 y3).
  { destruct (row_symbol_index row Hr) as [i Hi].
    unfold triangleLayout in *.
    change (constructor None) with (constructor (Some (Int 10))) in *.
    rewrite (nonzero_calculateCoordinates 10 ltac:(discriminate) i row col Hi Hc)
      in *.
    cbv zeta in *.
    destruct (Z.even col); apply JSON_stringify_2_inj; exact Hshown. }
  unfold row_col_calc_btn_click. rewrite !parse_vertex_text.
  fold (triangle x1 y1 x2 y2 x3 y3). rewrite <- Hfwd.
  unfold triangleLayout.
  change (constructor None) with (constructor (Some (Int 10))).
  rewrite (calculateRowAndColumn_calculateCoordinates 10 eq_refl row col Hr Hc).
  apply (label_of_cell row col Hr Hc).
Qed.

Lemma click_handlers_roundtrip_witness :
  row_col_calc_btn_click (vertex_text 10 20) (vertex_text 10 10)
    (vertex_text 20 20)
  = "B3"%string.
Proof.
  apply (click_handlers_roundtrip "B" 3 10 20 10 10 20 20).
  - cbn. tauto.
  - lia.
  - reflexivity.
Defined.
